(** * hacker-stories: the stories reducer, the fetch handler, the persisted
    search term and the search form of [src/App.js], embedded in Rocq.

    The JavaScript is untyped; the embedding keeps the part of that
    dynamism the code can meet: a payload or the [data] field may be
    [undefined], an array of stories or a single story object, property
    access on [undefined] throws a [TypeError], and the reducer's
    [default] branch throws an [Error].

    React is taken as it runs this code under [ReactDOM.render]: an action
    dispatched from an event handler or an effect is queued, one dispatched
    later (after an [await]) is reduced and rendered before the call
    returns, and a render that throws unmounts the tree. *)

From stdpp Require Import base strings list gmap.
From Stdlib Require Import ZArith.

Local Open Scope string_scope.

(** ** JavaScript values and completions *)

(** A story record as the search API returns it (fields read by [Item]). *)
Record Story := {
  objectID : string;
  title : string;
  url : string;
  author : string;
  num_comments : Z;
  points : Z
}.

(** The values that flow through [action.payload] and [state.data]. *)
Inductive value :=
| VUndefined
| VArray (items : list Story)
| VObject (item : Story).

Inductive exn := Error | TypeError.

(** The outcome of evaluating an expression: a value or a thrown exception. *)
Inductive completion (A : Type) :=
| Return (a : A)
| Throw (e : exn).
Arguments Return {A} a.
Arguments Throw {A} e.

(** Sequencing: an exception skips the rest of the computation. *)
#[global] Instance completion_bind : MBind completion :=
  fun A B (k : A -> completion B) (c : completion A) =>
    match c with
    | Return a => k a
    | Throw e => Throw e
    end.

Definition is_array (v : value) : bool :=
  match v with
  | VArray _ => true
  | VUndefined | VObject _ => false
  end.

(** [v.objectID]: throws on [undefined], is [undefined] (here [None]) on an
    array, and is the identifier on a story object. *)
Definition get_objectID (v : value) : completion (option string) :=
  match v with
  | VUndefined => Throw TypeError
  | VArray _ => Return None
  | VObject s => Return (Some (objectID s))
  end.

(** [a !== b] where [b] is a string and [a] a string or [undefined]. *)
Definition strict_neq (a : option string) (b : string) : bool :=
  match a with
  | None => true
  | Some x => negb (String.eqb x b)
  end.

(** [Array.prototype.filter] with a callback that may throw: the callback
    runs on the elements from left to right and the first exception
    aborts the call; on an empty array the callback never runs. *)
Fixpoint array_filter {A} (cb : A -> completion bool) (l : list A)
  : completion (list A) :=
  match l with
  | [] => Return []
  | x :: rest =>
      keep ← cb x;
      rest' ← array_filter cb rest;
      Return (if (keep : bool) then x :: rest' else rest')
  end.

(** ** The stories reducer *)

Record State := {
  data : value;
  isLoading : bool;
  isError : bool
}.

Record Action := {
  type : string;
  payload : value
}.

(** [{ data: [], isLoading: false, isError: false }], the second argument of
    [React.useReducer]. *)
Definition initialState : State :=
  {| data := VArray []; isLoading := false; isError := false |}.

(** [state.data.filter((story) => action.payload.objectID !== story.objectID)] *)
Definition filter_data (state : State) (action : Action) : completion value :=
  match data state with
  | VArray stories =>
      kept ← array_filter
                (fun story =>
                   id ← get_objectID (payload action);
                   Return (strict_neq id (objectID story)))
                stories;
      Return (VArray kept)
  | VUndefined | VObject _ => Throw TypeError
  end.

Definition storiesReducer (state : State) (action : Action) : completion State :=
  if String.eqb (type action) "STORIES_FETCH_INIT" then
    Return {| data := data state; isLoading := true; isError := false |}
  else if String.eqb (type action) "STORIES_FETCH_SUCCESS" then
    Return {| data := payload action; isLoading := false; isError := false |}
  else if String.eqb (type action) "STORIES_FETCH_FAILURE" then
    Return {| data := data state; isLoading := false; isError := true |}
  else if String.eqb (type action) "REMOVE_STORY" then
    data' ← filter_data state action;
    Return {| data := data'; isLoading := isLoading state; isError := isError state |}
  else
    Throw Error.

(** The four kinds of dispatch the application performs, with the payload
    each one carries in [handleFetchStories] and [handleRemoveStory]. *)
Inductive Dispatch :=
| FETCH_INIT
| FETCH_SUCCESS (hits : list Story)
| FETCH_FAILURE
| REMOVE_ITEM (item : Story).

Definition toAction (d : Dispatch) : Action :=
  match d with
  | FETCH_INIT => {| type := "STORIES_FETCH_INIT"; payload := VUndefined |}
  | FETCH_SUCCESS hits => {| type := "STORIES_FETCH_SUCCESS"; payload := VArray hits |}
  | FETCH_FAILURE => {| type := "STORIES_FETCH_FAILURE"; payload := VUndefined |}
  | REMOVE_ITEM item => {| type := "REMOVE_STORY"; payload := VObject item |}
  end.

(** [React.useReducer]: every dispatched action is folded into the state;
    an exception of the reducer ends the run. *)
Fixpoint dispatchAll (state : State) (actions : list Action) : completion State :=
  match actions with
  | [] => Return state
  | a :: rest =>
      state' ← storiesReducer state a;
      dispatchAll state' rest
  end.

(** A state of the shape the specification describes: [data] is an array,
    and the two flags are not both set. *)
Definition well_formed (state : State) : Prop :=
  (∃ l, data state = VArray l) ∧ (isLoading state && isError state) = false.

(** A story with the given identifier, for examples. *)
Definition story_of (id : string) : Story :=
  {| objectID := id; title := "t"; url := "u"; author := "a";
     num_comments := 0; points := 0 |}.

(** ** The fetch handler *)

Definition API_ENDPOINT : string := "https://hn.algolia.com/api/v1/search?query=".

Module axios.
(** The body of a response as far as [result.data.hits] observes it:
    [null] or [undefined] (reading [.hits] throws), or anything else,
    with the value found under [hits] ([undefined] when absent). *)
Inductive Body :=
| BodyNull
| BodyObject (hits : value).

Record Response := { data : Body }.

(** How the promise returned by [axios.get] settles. *)
Inductive Settled :=
| Fulfilled (result : Response)
| Rejected.
End axios.

(** [result.data.hits] *)
Definition response_hits (result : axios.Response) : completion value :=
  match axios.data result with
  | axios.BodyNull => Throw TypeError
  | axios.BodyObject hits => Return hits
  end.

(** An [async] function body: it ends with a completion, calls
    [dispatchStories] and goes on with the way that call completed, or
    awaits a GET request and goes on with the way the request settled. *)
Inductive Async (A : Type) :=
| Done (c : completion A)
| DispatchStories (action : Action) (k : completion unit -> Async A)
| AwaitGet (url : string) (k : axios.Settled -> Async A).
Arguments Done {A} c.
Arguments DispatchStories {A} action k.
Arguments AwaitGet {A} url k.

#[global] Instance Async_bind : MBind Async :=
  fun A B (f : A -> Async B) =>
    fix go (m : Async A) : Async B :=
      match m with
      | Done (Return a) => f a
      | Done (Throw e) => Done (Throw e)
      | DispatchStories a k => DispatchStories a (fun c => go (k c))
      | AwaitGet u k => AwaitGet u (fun o => go (k o))
      end.

(** [try { body } catch { handler }]: the handler runs when the body throws,
    after everything the body did before throwing. *)
Fixpoint try_catch {A} (body handler : Async A) : Async A :=
  match body with
  | Done (Return a) => Done (Return a)
  | Done (Throw _) => handler
  | DispatchStories a k => DispatchStories a (fun c => try_catch (k c) handler)
  | AwaitGet u k => AwaitGet u (fun o => try_catch (k o) handler)
  end.

(** [dispatchStories(action)]: the call returns [undefined] or throws. When
    it is made outside React's own batches, as after an [await], React runs
    the reducer and renders the component before the call returns, and an
    exception of that render comes out of the call: inside a [try] it is
    caught like any other. *)
Definition dispatchStories (action : Action) : Async unit :=
  DispatchStories action Done.

(** [await axios.get(url)]: a rejected promise is thrown at the [await]. *)
Definition await_axios_get (url : string) : Async axios.Response :=
  AwaitGet url (fun o =>
    match o with
    | axios.Fulfilled result => Done (Return result)
    | axios.Rejected => Done (Throw Error)
    end).

Definition handleFetchStories (url : string) : Async unit :=
  _ ← dispatchStories {| type := "STORIES_FETCH_INIT"; payload := VUndefined |};
  try_catch
    (result ← await_axios_get url;
     hits ← Done (response_hits result);
     dispatchStories {| type := "STORIES_FETCH_SUCCESS"; payload := hits |})
    (dispatchStories {| type := "STORIES_FETCH_FAILURE"; payload := VUndefined |}).

(** What an observer of the handler sees, in order: its calls of
    [dispatchStories] and its request. *)
Inductive Event :=
| EvDispatch (action : Action)
| EvGet (url : string).

(** Runs an [async] body in its surroundings: [network] decides how the
    request to each URL settles, and [dispatch] what a call of
    [dispatchStories] does to the component (a [W]) and how the call
    completes. Gives the component afterwards, the events in order and the
    final completion of the body. *)
Fixpoint run {W A} (network : string -> axios.Settled)
    (dispatch : Action -> W -> W * completion unit) (m : Async A) (w : W)
  : W * list Event * completion A :=
  match m with
  | Done c => (w, [], c)
  | DispatchStories a k =>
      let '(w1, called) := dispatch a w in
      let '(w2, events, c) := run network dispatch (k called) w1 in
      (w2, EvDispatch a :: events, c)
  | AwaitGet u k =>
      let '(w2, events, c) := run network dispatch (k (network u)) w in
      (w2, EvGet u :: events, c)
  end.

Definition is_dispatch_of (ty : string) (e : Event) : bool :=
  match e with
  | EvDispatch a => String.eqb (type a) ty
  | EvGet _ => false
  end.

(** The number of dispatches of the given action type in a trace. *)
Definition count_dispatches (ty : string) (events : list Event) : nat :=
  length (filter (fun e => is_dispatch_of ty e = true) events).

(** The actions dispatched before the first [await]. The body runs up to
    there inside an effect, where React only queues the actions: each call
    returns, and the reducer sees the actions afterwards. *)
Fixpoint dispatched_before_await {A} (m : Async A) : list Action :=
  match m with
  | DispatchStories a k => a :: dispatched_before_await (k (Return ()))
  | Done _ | AwaitGet _ _ => []
  end.

(** The rest of the body once the request it awaits has settled as [o]. *)
Fixpoint after_await {A} (o : axios.Settled) (m : Async A) : Async A :=
  match m with
  | Done c => Done c
  | DispatchStories _ k => after_await o (k (Return ()))
  | AwaitGet _ k => k o
  end.

(** The three actions of [handleFetchStories]. *)
Definition INIT : Action := {| type := "STORIES_FETCH_INIT"; payload := VUndefined |}.
Definition SUCCESS (hits : value) : Action :=
  {| type := "STORIES_FETCH_SUCCESS"; payload := hits |}.
Definition FAILURE : Action := {| type := "STORIES_FETCH_FAILURE"; payload := VUndefined |}.

(** The first dispatch that follows the request, by the way the request
    settled: a response without a body counts as a failure, because reading
    [result.data.hits] throws inside the [try]. *)
Definition settled_action (o : axios.Settled) : Action :=
  match o with
  | axios.Fulfilled {| axios.data := axios.BodyObject hits |} => SUCCESS hits
  | axios.Fulfilled {| axios.data := axios.BodyNull |} => FAILURE
  | axios.Rejected => FAILURE
  end.

(** The responses the handler takes without an exception of the render that
    follows: a rejection, a response without a body, and a response whose
    [hits] is an array (of story records, as the search API sends it). *)
Definition well_shaped (o : axios.Settled) : bool :=
  match o with
  | axios.Fulfilled {| axios.data := axios.BodyObject hits |} => is_array hits
  | axios.Fulfilled {| axios.data := axios.BodyNull |} => true
  | axios.Rejected => true
  end.

(** ** The persisted search term *)

(** JavaScript truthiness of a string: only the empty string is falsy. *)
Definition truthy (s : string) : bool :=
  match s with
  | EmptyString => false
  | String _ _ => true
  end.

(** [a || b] where [a] is a string or [null] and [b] a string. *)
Definition js_or (a : option string) (b : string) : string :=
  match a with
  | Some s => if truthy s then s else b
  | None => b
  end.

(** [localStorage]: [getItem] gives [null] (here [None]) for a missing key. *)
Definition getItem (storage : gmap string string) (key : string) : option string :=
  storage !! key.

Definition setItem (key value : string) (storage : gmap string string)
  : gmap string string :=
  <[key := value]> storage.

Inductive StorageOp :=
| OpGetItem (key : string)
| OpSetItem (key value : string).

Definition is_read (op : StorageOp) : bool :=
  match op with
  | OpGetItem _ => true
  | OpSetItem _ _ => false
  end.

(** The number of [getItem] calls among the storage operations. *)
Definition count_reads (ops : list StorageOp) : nat :=
  length (filter (fun op => is_read op = true) ops).

(** What React remembers of one use of the hook between renders: the state
    value and the dependencies of the effect's last run; both are empty
    when the component mounts. *)
Record HookCells := {
  stateCell : option string;
  depsCell : option (string * string)
}.

Definition mountCells : HookCells := {| stateCell := None; depsCell := None |}.

(** [React.useState(initialState)]: the argument counts on the first
    render only. *)
Definition useState {A} (cell : option A) (initialState : A) : A :=
  default initialState cell.

(** [React.useEffect(effect, deps)] runs the effect after the first render
    and after each render whose dependencies differ from the last run's. *)
Definition deps_changed {D} `{EqDecision D} (last : option D) (deps : D) : bool :=
  match last with
  | None => true
  | Some d => negb (bool_decide (d = deps))
  end.

Record HookResult := {
  hookValue : string;
  hookCells : HookCells;
  hookStorage : gmap string string;
  hookOps : list StorageOp
}.

(** One render of a component that calls [useSemiPersistentState(key,
    initialState)], with the effect that follows it. The argument of
    [useState] is an expression, so [getItem] is called in every render. *)
Definition useSemiPersistentState
    (cells : HookCells) (storage : gmap string string) (key initialState : string)
  : HookResult :=
  let value := useState (stateCell cells) (js_or (getItem storage key) initialState) in
  let effect := deps_changed (depsCell cells) (value, key) in
  {| hookValue := value;
     hookCells := {| stateCell := Some value; depsCell := Some (value, key) |};
     hookStorage := if effect then setItem key value storage else storage;
     hookOps := OpGetItem key :: (if effect then [OpSetItem key value] else []) |}.

(** [setValue(v)] *)
Definition setValue (v : string) (cells : HookCells) : HookCells :=
  {| stateCell := Some v; depsCell := depsCell cells |}.

(** ** The search form *)

Record SearchFormView := {
  inputValue : string;
  submitDisabled : bool
}.

(** [<InputWithLabel value={searchTerm} />] and
    [<button type="submit" disabled={!searchTerm}>] *)
Definition SearchForm (searchTerm : string) : SearchFormView :=
  {| inputValue := searchTerm; submitDisabled := negb (truthy searchTerm) |}.

(** ** The rendered page *)

(** What [Item] shows of a story, and what a click on its button calls:
    [onRemoveItem(item)], whatever handler the parent passed down. *)
Record ItemView (E : Type) := {
  href : string;
  linkText : string;
  authorText : string;
  commentsText : Z;
  pointsText : Z;
  onClick : E
}.
Arguments href {E} _.
Arguments linkText {E} _.
Arguments authorText {E} _.
Arguments commentsText {E} _.
Arguments pointsText {E} _.
Arguments onClick {E} _.

Definition Item {E} (item : Story) (onRemoveItem : Story -> E) : ItemView E :=
  {| href := url item;
     linkText := title item;
     authorText := author item;
     commentsText := num_comments item;
     pointsText := points item;
     onClick := onRemoveItem item |}.

(** [list.map((item) => <Item key={item.objectID} ... />)]: one keyed [Item]
    per story, in order; a [list] that is not an array has no [map]. *)
Definition List {E} (stories : value) (onRemoveItem : Story -> E)
  : completion (list (string * ItemView E)) :=
  match stories with
  | VArray items =>
      Return (map (fun item => (objectID item, Item item onRemoveItem)) items)
  | VUndefined | VObject _ => Throw TypeError
  end.

(** ** The application *)

Module App.

(** The component's state after a render and its effects. *)
Record AppState := {
  searchTerm : string;
  url : string;
  stories : State;
  localStorage : gmap string string
}.

Definition set_stories (s : State) (st : AppState) : AppState :=
  {| searchTerm := searchTerm st; url := url st; stories := s;
     localStorage := localStorage st |}.

(** [handleSearchInput]: [setSearchTerm(event.target.value)] *)
Definition handleSearchInput (v : string) (st : AppState) : AppState :=
  {| searchTerm := v; url := url st; stories := stories st;
     localStorage := localStorage st |}.

(** [handleSearchSubmit]: [setUrl(`${API_ENDPOINT}${searchTerm}`)] *)
Definition handleSearchSubmit (st : AppState) : AppState :=
  {| searchTerm := searchTerm st; url := API_ENDPOINT +:+ searchTerm st;
     stories := stories st; localStorage := localStorage st |}.

(** The actions reach the reducer in order; its exception ends the run. *)
Definition dispatchToApp (actions : list Action) (st : AppState)
  : completion AppState :=
  s ← dispatchAll (stories st) actions;
  Return (set_stories s st).

(** [handleRemoveStory] *)
Definition handleRemoveStory (item : Story) (st : AppState) : completion AppState :=
  dispatchToApp [{| type := "REMOVE_STORY"; payload := VObject item |}] st.

(** The effects that follow a render in which the state went from [old]
    to [new]: the hook writes the search term back when it changed, and a
    changed URL gives a new [handleFetchStories], which is then called:
    it dispatches up to its [await] and issues the request. The second
    component is the list of URLs requested. *)
Definition commit (old new : AppState) : completion AppState * list string :=
  let storage :=
    if deps_changed (Some (searchTerm old, "search")) (searchTerm new, "search")
    then setItem "search" (searchTerm new) (localStorage new)
    else localStorage new in
  let new' := {| searchTerm := searchTerm new; url := url new;
                 stories := stories new; localStorage := storage |} in
  if deps_changed (Some (url old)) (url new)
  then (dispatchToApp (dispatched_before_await (handleFetchStories (url new))) new',
        [url new])
  else (Return new', []).

(** The first render and its effects, over the given storage. *)
Definition mount (storage : gmap string string) : completion AppState * list string :=
  let hook := useSemiPersistentState mountCells storage "search" "React" in
  let url0 := useState None (API_ENDPOINT +:+ hookValue hook) in
  let st := {| searchTerm := hookValue hook; url := url0;
               stories := useState None initialState;
               localStorage := hookStorage hook |} in
  (dispatchToApp (dispatched_before_await (handleFetchStories url0)) st, [url0]).

(** What can happen to the mounted component: a keystroke in the input, a
    submission of the form, a click on a story's dismiss button, and the
    settling of a request (of any URL, in any order: the code keeps no
    record of the requests in flight). *)
Inductive UiEvent :=
| InputChange (v : string)
| SubmitForm
| DismissClick (item : Story)
| FetchSettled (requested : string) (o : axios.Settled).

(** *** The page *)

Inductive PageBody :=
| LoadingText
| StoryList (items : list (string * ItemView UiEvent)).

Record AppView := {
  form : SearchFormView;
  errorMessage : bool;
  body : PageBody
}.

(** The tree [App] returns: the form, "Something went wrong ..." when
    [stories.isError], and "Loading ..." or the list by [stories.isLoading].
    The list is only built when it is shown. *)
Definition renderApp (st : AppState) : completion AppView :=
  shown ← (if isLoading (stories st)
           then Return LoadingText
           else items ← List (data (stories st)) DismissClick;
                Return (StoryList items));
  Return {| form := SearchForm (searchTerm st);
            errorMessage := isError (stories st);
            body := shown |}.

(** The keys of the stories a view lists; none while loading. *)
Definition listed_keys (view : AppView) : list string :=
  match body view with
  | LoadingText => []
  | StoryList items => map fst items
  end.

(** *** Events *)

(** React's root for the component: whether the tree is still mounted, and
    the state of the component (the last one, once it is unmounted). *)
Record Tree := {
  mounted : bool;
  current : AppState
}.

(** A call of [dispatchStories] made outside React's batches, on the root:
    the reducer runs and the component is rendered before the call returns.
    When the reducer or the render throws, React unmounts the tree and the
    exception comes out of the call. On an unmounted tree the call does
    nothing. *)
Definition dispatchSync (action : Action) (t : Tree) : Tree * completion unit :=
  if mounted t then
    match storiesReducer (stories (current t)) action with
    | Return s =>
        let st' := set_stories s (current t) in
        match renderApp st' with
        | Return _ => ({| mounted := true; current := st' |}, Return ())
        | Throw err => ({| mounted := false; current := st' |}, Throw err)
        end
    | Throw err => ({| mounted := false; current := current t |}, Throw err)
    end
  else (t, Return ()).

(** A whole call of [handleFetchStories] on the mounted component in state
    [st]. (The first dispatch is made inside an effect, where React queues
    it; it is FETCH_INIT, after which the render cannot throw, so that the
    synchronous reading gives the same.) *)
Definition callFetchStories (network : string -> axios.Settled) (requested : string)
    (st : AppState) : Tree * list Event * completion unit :=
  run network dispatchSync (handleFetchStories requested)
      {| mounted := true; current := st |}.

(** The part of that call that runs once the request has settled as [o]. *)
Definition settle (o : axios.Settled) (requested : string) (st : AppState)
  : Tree * list Event * completion unit :=
  run (fun _ => o) dispatchSync (after_await o (handleFetchStories requested))
      {| mounted := true; current := st |}.

(** The state change an event's handler asks for, then the effects, on the
    mounted component in state [st]. *)
Definition step (st : AppState) (e : UiEvent) : completion AppState * list string :=
  match e with
  | InputChange v => commit st (handleSearchInput v st)
  | SubmitForm => commit st (handleSearchSubmit st)
  | DismissClick item => (handleRemoveStory item st, [])
  | FetchSettled requested o => (Return (current (settle o requested st).1.1), [])
  end.

(** Whether the page lets the event happen: a form whose submit button is
    disabled cannot be submitted, neither by the button nor from the
    text input. *)
Definition offered (st : AppState) (e : UiEvent) : bool :=
  match e with
  | SubmitForm => negb (submitDisabled (SearchForm (searchTerm st)))
  | InputChange _ | DismissClick _ | FetchSettled _ _ => true
  end.

(** A run of offered events; [None] when an event was not offered. The
    result collects every URL requested during the run. This follows the
    handlers only: nothing is rendered between two events, so that a run
    also goes on from a state in which the component cannot be rendered;
    [interact_live] below ends there. *)
Fixpoint interact (st : AppState) (events : list UiEvent)
  : option (completion AppState * list string) :=
  match events with
  | [] => Some (Return st, [])
  | e :: rest =>
      if offered st e then
        match step st e with
        | (Return st', requested) =>
            '(final, more) ← interact st' rest;
            Some (final, (requested ++ more)%list)
        | (Throw err, requested) => Some (Throw err, requested)
        end
      else None
  end.

(** A run as React carries it out: the component is rendered after each
    event, and when that render throws, React unmounts the tree and the run
    is over: nothing is offered any more and later dispatches are dropped. *)
Fixpoint interact_live (st : AppState) (events : list UiEvent)
  : option (completion AppState * list string) :=
  match events with
  | [] => Some (Return st, [])
  | e :: rest =>
      if offered st e then
        match step st e with
        | (Return st', requested) =>
            match renderApp st' with
            | Return _ =>
                '(final, more) ← interact_live st' rest;
                Some (final, (requested ++ more)%list)
            | Throw err => Some (Throw err, requested)
            end
        | (Throw err, requested) => Some (Throw err, requested)
        end
      else None
  end.

(** A query URL made from a search term that is not empty. *)
Definition query_of_nonempty_term (u : string) : Prop :=
  ∃ term, term ≠ "" ∧ u = API_ENDPOINT +:+ term.

End App.

(** ** Reading a run of dispatches *)

Definition is_remove (d : Dispatch) : bool :=
  match d with
  | REMOVE_ITEM _ => true
  | FETCH_INIT | FETCH_SUCCESS _ | FETCH_FAILURE => false
  end.

(** The payload of the last FETCH_SUCCESS of a run, [current] when there
    is none. *)
Fixpoint latest_hits (current : list Story) (ds : list Dispatch) : list Story :=
  match ds with
  | [] => current
  | FETCH_SUCCESS hits :: rest => latest_hits hits rest
  | (FETCH_INIT | FETCH_FAILURE | REMOVE_ITEM _) :: rest => latest_hits current rest
  end.

(** * Properties *)

(** ** The reducer *)

Section Reducer.

Implicit Types (state : State) (action : Action) (item story : Story).

Lemma reducer_FETCH_INIT state p :
  storiesReducer state {| type := "STORIES_FETCH_INIT"; payload := p |}
  = Return {| data := data state; isLoading := true; isError := false |}.
Proof. reflexivity. Qed.

Lemma reducer_FETCH_SUCCESS state p :
  storiesReducer state {| type := "STORIES_FETCH_SUCCESS"; payload := p |}
  = Return {| data := p; isLoading := false; isError := false |}.
Proof. reflexivity. Qed.

Lemma reducer_FETCH_FAILURE state p :
  storiesReducer state {| type := "STORIES_FETCH_FAILURE"; payload := p |}
  = Return {| data := data state; isLoading := false; isError := true |}.
Proof. reflexivity. Qed.

Lemma reducer_REMOVE_STORY state p :
  storiesReducer state {| type := "REMOVE_STORY"; payload := p |}
  = data' ← filter_data state {| type := "REMOVE_STORY"; payload := p |};
    Return {| data := data'; isLoading := isLoading state; isError := isError state |}.
Proof. reflexivity. Qed.

(** A callback that does not throw makes [array_filter] an ordinary filter. *)
Lemma array_filter_by_id (id : string) (l : list Story) :
  array_filter (fun story => Return (strict_neq (Some id) (objectID story))) l
  = Return (filter (fun story => objectID story ≠ id) l).
Proof.
  induction l as [|s l IH]; [reflexivity|].
  cbn [array_filter]. rewrite IH, filter_cons.
  cbn [mbind completion_bind strict_neq].
  destruct (String.eqb_spec id (objectID s)) as [Heq|Hne]; cbn [negb].
  - rewrite decide_False; [reflexivity | intros H; by apply H].
  - rewrite decide_True; [reflexivity | congruence].
Qed.

Lemma filter_data_object (l : list Story) ld er ty item :
  filter_data {| data := VArray l; isLoading := ld; isError := er |}
              {| type := ty; payload := VObject item |}
  = Return (VArray (filter (fun story => objectID story ≠ objectID item) l)).
Proof.
  unfold filter_data. cbn [data payload get_objectID].
  change (array_filter _ l) with
    (array_filter (fun story => Return (strict_neq (Some (objectID item)) (objectID story))) l).
  by rewrite array_filter_by_id.
Qed.

Lemma well_formed_initial : well_formed initialState.
Proof. split; [by eexists | reflexivity]. Qed.

Lemma well_formed_step state (d : Dispatch) :
  well_formed state →
  ∃ state', storiesReducer state (toAction d) = Return state' ∧ well_formed state'.
Proof.
  intros [[l Hl] Hflags]. destruct state as [dt ld er]; cbn in *; subst dt.
  destruct d as [|hits| |item]; cbn [toAction].
  - eexists; split; [apply reducer_FETCH_INIT|]. split; [by eexists | reflexivity].
  - eexists; split; [apply reducer_FETCH_SUCCESS|]. split; [by eexists | reflexivity].
  - eexists; split; [apply reducer_FETCH_FAILURE|]. split; [by eexists | reflexivity].
  - rewrite reducer_REMOVE_STORY, filter_data_object.
    eexists; split; [reflexivity|]. split; [by eexists | exact Hflags].
Qed.

Lemma well_formed_run (ds : list Dispatch) state :
  well_formed state →
  ∃ state', dispatchAll state (toAction <$> ds) = Return state' ∧ well_formed state'.
Proof.
  revert state. induction ds as [|d ds IH]; intros state Hwf.
  - by exists state.
  - destruct (well_formed_step state d Hwf) as (s1 & Hs1 & Hwf1).
    destruct (IH s1 Hwf1) as (s2 & Hs2 & Hwf2).
    exists s2. split; [|done]. cbn. rewrite Hs1. exact Hs2.
Qed.

(** Whatever the actions are, a reducer call that returns keeps the flags
    from being both set. *)
Lemma flags_exclusive_step state action state' :
  (isLoading state && isError state) = false →
  storiesReducer state action = Return state' →
  (isLoading state' && isError state') = false.
Proof.
  intros Hflags. unfold storiesReducer.
  repeat case_match; intros Hr; try discriminate;
    try (injection Hr as <-; reflexivity).
  destruct (filter_data state action) as [d|e]; [|discriminate].
  cbn in Hr. injection Hr as <-. exact Hflags.
Qed.

Lemma flags_exclusive_run (actions : list Action) state state' :
  (isLoading state && isError state) = false →
  dispatchAll state actions = Return state' →
  (isLoading state' && isError state') = false.
Proof.
  revert state. induction actions as [|a actions IH]; intros state Hflags; cbn.
  - by intros [= <-].
  - destruct (storiesReducer state a) as [s1|e] eqn:Hs1; [|discriminate].
    cbn. apply IH. by eapply flags_exclusive_step.
Qed.

End Reducer.

Section ReducerClaims.

Implicit Types (state : State) (action : Action) (item story : Story).

Lemma filter_all_kept {A} (P : A → Prop) `{∀ x, Decision (P x)} (l : list A) :
  Forall P l → filter P l = l.
Proof.
  induction 1 as [|x l Hx _ IH]; [reflexivity|].
  by rewrite filter_cons_True, IH.
Qed.

Lemma filter_none_kept {A} (P : A → Prop) `{∀ x, Decision (P x)} (l : list A) :
  Forall (fun x => ¬ P x) l → filter P l = [].
Proof.
  induction 1 as [|x l Hx _ IH]; [reflexivity|].
  by rewrite filter_cons_False, IH.
Qed.

(** C1. Starting from the initial state, every sequence of the four kinds
    of dispatch is accepted by the reducer, and in the state it leads to
    [isLoading] and [isError] are not both true. *)
Theorem flags_never_both_true (ds : list Dispatch) :
  ∃ state,
    dispatchAll initialState (toAction <$> ds) = Return state
    ∧ ¬ (isLoading state = true ∧ isError state = true).
Proof.
  destruct (well_formed_run ds initialState well_formed_initial)
    as (state & Hrun & _ & Hflags).
  exists state. split; [exact Hrun|].
  intros [Hl He]. rewrite Hl, He in Hflags. discriminate.
Qed.

(** C2. On a state whose [data] is the array [l], REMOVE_STORY with a
    payload whose [objectID] is [id] returns a state with the same flags
    whose [data] is an array [l'] such that: a record is in [l'] exactly
    when it is in [l] and its identifier differs from [id]; [l'] is [l]
    with some elements left out, in the same order; the records with
    another identifier form the same sequence in [l'] as in [l]; and when
    exactly one record of [l] carries [id], [l'] is [l] without it. *)
Theorem remove_item_removes_exactly (l : list Story) (ld er : bool) item :
  ∃ l',
    storiesReducer {| data := VArray l; isLoading := ld; isError := er |}
                   (toAction (REMOVE_ITEM item))
    = Return {| data := VArray l'; isLoading := ld; isError := er |}
    ∧ (∀ story, story ∈ l' ↔ story ∈ l ∧ objectID story ≠ objectID item)
    ∧ sublist l' l
    ∧ filter (fun story => objectID story ≠ objectID item) l'
      = filter (fun story => objectID story ≠ objectID item) l
    ∧ (∀ l1 r l2,
          l = (l1 ++ r :: l2)%list →
          objectID r = objectID item →
          Forall (fun story => objectID story ≠ objectID item) (l1 ++ l2)%list →
          l' = (l1 ++ l2)%list).
Proof.
  exists (filter (fun story => objectID story ≠ objectID item) l).
  split; [|split; [|split; [|split]]].
  - cbn [toAction]. by rewrite reducer_REMOVE_STORY, filter_data_object.
  - intros story. rewrite list_elem_of_filter. tauto.
  - apply sublist_filter.
  - apply filter_all_kept, Forall_forall. intros story Hin.
    by apply list_elem_of_filter in Hin as [Hne _].
  - intros l1 r l2 -> Hr Hothers.
    apply Forall_app in Hothers as [H1 H2].
    rewrite filter_app, filter_cons_False by (intros H; by apply H).
    by rewrite !filter_all_kept.
Qed.

Lemma remove_item_removes_exactly_witness :
  storiesReducer
    {| data := VArray [story_of "1"; story_of "2"; story_of "3"];
       isLoading := false; isError := true |}
    (toAction (REMOVE_ITEM (story_of "2")))
  = Return {| data := VArray [story_of "1"; story_of "3"];
              isLoading := false; isError := true |}.
Proof.
  destruct (remove_item_removes_exactly
              [story_of "1"; story_of "2"; story_of "3"] false true (story_of "2"))
    as (l' & Hr & _ & _ & _ & Hone).
  rewrite Hr.
  rewrite (Hone [story_of "1"] (story_of "2") [story_of "3"]);
    [reflexivity | reflexivity | reflexivity | repeat constructor; discriminate].
Defined.

(** Records that share the identifier are all removed. *)
Example remove_item_duplicates :
  storiesReducer
    {| data := VArray [story_of "2"; story_of "1"; story_of "2"];
       isLoading := false; isError := false |}
    (toAction (REMOVE_ITEM (story_of "2")))
  = Return {| data := VArray [story_of "1"]; isLoading := false; isError := false |}.
Proof. reflexivity. Qed.

(** Outside the four dispatches of the application: without a payload the
    callback of [filter] throws as soon as there is a story to test, and a
    [data] that is not an array has no [filter]. *)
Example remove_without_payload_empty :
  storiesReducer initialState {| type := "REMOVE_STORY"; payload := VUndefined |}
  = Return initialState.
Proof. reflexivity. Qed.

Example remove_without_payload_throws :
  storiesReducer
    {| data := VArray [story_of "1"]; isLoading := false; isError := false |}
    {| type := "REMOVE_STORY"; payload := VUndefined |}
  = Throw TypeError.
Proof. reflexivity. Qed.

Example remove_from_undefined_data_throws :
  dispatchAll initialState
    [{| type := "STORIES_FETCH_SUCCESS"; payload := VUndefined |};
     toAction (REMOVE_ITEM (story_of "1"))]
  = Throw TypeError.
Proof. reflexivity. Qed.

(** C3. FETCH_SUCCESS returns a state with both flags false and with the
    payload as [data], whatever the previous state was: two states give
    the same result. *)
Theorem fetch_success_replaces_data state (p : value) :
  storiesReducer state {| type := "STORIES_FETCH_SUCCESS"; payload := p |}
  = Return {| data := p; isLoading := false; isError := false |}
  ∧ ∀ other,
      storiesReducer other {| type := "STORIES_FETCH_SUCCESS"; payload := p |}
      = storiesReducer state {| type := "STORIES_FETCH_SUCCESS"; payload := p |}.
Proof. split; [apply reducer_FETCH_SUCCESS | intros other; reflexivity]. Qed.

(** C4. FETCH_INIT returns the state with the same [data],
    [isLoading = true] and [isError = false]; FETCH_FAILURE returns the
    state with the same [data], [isLoading = false] and [isError = true];
    so a failure after a success still shows the data of the success. *)
Theorem fetch_init_failure_keep_data state (p : value) :
  storiesReducer state {| type := "STORIES_FETCH_INIT"; payload := p |}
  = Return {| data := data state; isLoading := true; isError := false |}
  ∧ storiesReducer state {| type := "STORIES_FETCH_FAILURE"; payload := p |}
    = Return {| data := data state; isLoading := false; isError := true |}
  ∧ ∀ hits,
      dispatchAll state [toAction (FETCH_SUCCESS hits); toAction FETCH_FAILURE]
      = Return {| data := VArray hits; isLoading := false; isError := true |}.
Proof. repeat split. Qed.

(** C7. An action whose type is none of the four strings of the [switch]
    makes the reducer throw an [Error]; no state is returned. *)
Theorem unknown_action_throws state action :
  type action ≠ "STORIES_FETCH_INIT" →
  type action ≠ "STORIES_FETCH_SUCCESS" →
  type action ≠ "STORIES_FETCH_FAILURE" →
  type action ≠ "REMOVE_STORY" →
  storiesReducer state action = Throw Error.
Proof.
  intros H1 H2 H3 H4. unfold storiesReducer.
  apply String.eqb_neq in H1, H2, H3, H4.
  by rewrite H1, H2, H3, H4.
Qed.

Lemma unknown_action_throws_witness :
  storiesReducer initialState {| type := "STORIES_FETCH_RETRY"; payload := VUndefined |}
  = Throw Error.
Proof. apply unknown_action_throws; discriminate. Defined.

(** The comparison is on the whole string: a type without the prefix of the
    [switch] labels is not recognised either. *)
Example unprefixed_type_throws :
  storiesReducer initialState {| type := "FETCH_INIT"; payload := VUndefined |}
  = Throw Error.
Proof. reflexivity. Qed.

End ReducerClaims.

(** ** The fetch handler *)

Section FetchClaims.

Import App.
Implicit Types (st : AppState) (network : string → axios.Settled) (u : string).

(** The events of a call: FETCH_INIT, the request, the dispatch the outcome
    asks for, and FETCH_FAILURE once more when the render after a
    FETCH_SUCCESS threw inside the [try]. *)
Lemma callFetchStories_events network u st :
  (callFetchStories network u st).1.2
  = ([EvDispatch INIT; EvGet u; EvDispatch (settled_action (network u))]
     ++ (if well_shaped (network u) then [] else [EvDispatch FAILURE]))%list.
Proof.
  unfold callFetchStories, handleFetchStories.
  destruct st as [term address [d ld er] storage].
  cbn. destruct (network u) as [[[|hits]]|]; cbn.
  - by destruct d.
  - by destruct hits.
  - by destruct d.
Qed.

(** The state the component is left in: that after the first dispatch that
    follows the request; a second one finds the tree unmounted. *)
Lemma callFetchStories_current network u st :
  dispatchToApp [INIT; settled_action (network u)] st
  = Return (current (callFetchStories network u st).1.1).
Proof.
  unfold callFetchStories, handleFetchStories.
  destruct st as [term address [d ld er] storage].
  cbn. destruct (network u) as [[[|hits]]|]; cbn.
  - by destruct d.
  - by destruct hits.
  - by destruct d.
Qed.

Lemma settle_current (o : axios.Settled) u st :
  dispatchToApp [settled_action o] st = Return (current (settle o u st).1.1).
Proof.
  unfold settle, handleFetchStories.
  destruct st as [term address [d ld er] storage].
  destruct o as [[[|hits]]|]; cbn.
  - by destruct d.
  - by destruct hits.
  - by destruct d.
Qed.

Lemma step_FetchSettled st u (o : axios.Settled) :
  step st (FetchSettled u o) = (dispatchToApp [settled_action o] st, []).
Proof. cbn [step]. by rewrite (settle_current o u st). Qed.

(** C5. On a mounted component, when the GET request is rejected, is
    answered without a body, or is answered with a body whose [hits] is an
    array, the handler's events are, in order: the dispatch of FETCH_INIT,
    the request, and one more dispatch, which is FETCH_SUCCESS with the
    response's [hits] in the last case and FETCH_FAILURE in the first two;
    so the trace holds exactly one dispatch of FETCH_SUCCESS or
    FETCH_FAILURE. *)
Theorem fetch_dispatches_exactly_one_outcome network u st :
  well_shaped (network u) = true →
  ∃ after,
    (callFetchStories network u st).1.2
    = [EvDispatch INIT; EvGet u; EvDispatch after]
    ∧ ((∃ hits, network u
                = axios.Fulfilled {| axios.data := axios.BodyObject (VArray hits) |}
                ∧ after = SUCCESS (VArray hits))
       ∨ ((network u = axios.Rejected
           ∨ network u = axios.Fulfilled {| axios.data := axios.BodyNull |})
          ∧ after = FAILURE))
    ∧ count_dispatches "STORIES_FETCH_SUCCESS" (callFetchStories network u st).1.2
      + count_dispatches "STORIES_FETCH_FAILURE" (callFetchStories network u st).1.2
      = 1.
Proof.
  intros Hshape. exists (settled_action (network u)).
  rewrite callFetchStories_events, Hshape.
  split; [reflexivity|].
  destruct (network u) as [[[|hits]]|]; cbn [settled_action].
  - split; [right; split; [by right | reflexivity] | reflexivity].
  - destruct hits as [|l|o]; try discriminate.
    split; [left; by exists l | reflexivity].
  - split; [right; split; [by left | reflexivity] | reflexivity].
Qed.

Lemma fetch_dispatches_exactly_one_outcome_witness :
  ∃ after,
    (callFetchStories
       (fun _ => axios.Fulfilled {| axios.data := axios.BodyObject (VArray [story_of "1"]) |})
       (API_ENDPOINT +:+ "React")
       {| searchTerm := "React"; App.url := API_ENDPOINT +:+ "React";
          stories := initialState; localStorage := {[ "search" := "React" ]} |}).1.2
    = [EvDispatch INIT; EvGet (API_ENDPOINT +:+ "React"); EvDispatch after]
    ∧ after = SUCCESS (VArray [story_of "1"]).
Proof.
  destruct (fetch_dispatches_exactly_one_outcome
              (fun _ => axios.Fulfilled
                          {| axios.data := axios.BodyObject (VArray [story_of "1"]) |})
              (API_ENDPOINT +:+ "React")
              {| searchTerm := "React"; App.url := API_ENDPOINT +:+ "React";
                 stories := initialState; localStorage := {[ "search" := "React" ]} |}
              eq_refl)
    as (after & Hevents & [(hits & Hnet & Hafter) | [[Hnet | Hnet] _]] & _);
    [| discriminate Hnet | discriminate Hnet].
  exists after. split; [exact Hevents|].
  injection Hnet as <-. exact Hafter.
Defined.

(** With a body that has no [hits], the render that follows the dispatch of
    FETCH_SUCCESS throws inside the [try], and the [catch] dispatches
    FETCH_FAILURE as well: both outcomes are dispatched, and the events are
    not FETCH_INIT, the request and one more dispatch. *)
Lemma fetch_without_hits_dispatches_both :
  let events :=
    (callFetchStories
       (fun _ => axios.Fulfilled {| axios.data := axios.BodyObject VUndefined |})
       (API_ENDPOINT +:+ "React")
       {| searchTerm := "React"; App.url := API_ENDPOINT +:+ "React";
          stories := initialState; localStorage := {[ "search" := "React" ]} |}).1.2 in
  events = [EvDispatch INIT; EvGet (API_ENDPOINT +:+ "React");
            EvDispatch (SUCCESS VUndefined); EvDispatch FAILURE]
  ∧ count_dispatches "STORIES_FETCH_SUCCESS" events = 1
  ∧ count_dispatches "STORIES_FETCH_FAILURE" events = 1
  ∧ ¬ (∃ after,
         events = [EvDispatch INIT; EvGet (API_ENDPOINT +:+ "React"); EvDispatch after]
         ∧ count_dispatches "STORIES_FETCH_SUCCESS" events
           + count_dispatches "STORIES_FETCH_FAILURE" events = 1).
Proof.
  cbn zeta. rewrite callFetchStories_events. cbn [settled_action well_shaped is_array app].
  split; [reflexivity|]. split; [reflexivity|]. split; [reflexivity|].
  intros (after & Hevents & _). discriminate Hevents.
Qed.

Example fetch_fulfilled_trace :
  callFetchStories
    (fun _ => axios.Fulfilled {| axios.data := axios.BodyObject (VArray [story_of "1"]) |})
    (API_ENDPOINT +:+ "React")
    {| searchTerm := "React"; App.url := API_ENDPOINT +:+ "React";
       stories := initialState; localStorage := ∅ |}
  = ({| mounted := true;
        current := {| searchTerm := "React"; App.url := API_ENDPOINT +:+ "React";
                      stories := {| data := VArray [story_of "1"]; isLoading := false;
                                    isError := false |};
                      localStorage := ∅ |} |},
     [EvDispatch INIT; EvGet (API_ENDPOINT +:+ "React");
      EvDispatch (SUCCESS (VArray [story_of "1"]))],
     Return ()).
Proof. reflexivity. Qed.

Example fetch_rejected_trace :
  callFetchStories (fun _ => axios.Rejected) (API_ENDPOINT +:+ "React")
    {| searchTerm := "React"; App.url := API_ENDPOINT +:+ "React";
       stories := initialState; localStorage := ∅ |}
  = ({| mounted := true;
        current := {| searchTerm := "React"; App.url := API_ENDPOINT +:+ "React";
                      stories := {| data := VArray []; isLoading := false;
                                    isError := true |};
                      localStorage := ∅ |} |},
     [EvDispatch INIT; EvGet (API_ENDPOINT +:+ "React"); EvDispatch FAILURE],
     Return ()).
Proof. reflexivity. Qed.

(** A body without [hits]: the success is reduced, its render throws, the
    tree is unmounted, and the failure that the [catch] dispatches is
    dropped; the handler itself ends normally. *)
Example fetch_without_hits_trace :
  callFetchStories
    (fun _ => axios.Fulfilled {| axios.data := axios.BodyObject VUndefined |})
    (API_ENDPOINT +:+ "React")
    {| searchTerm := "React"; App.url := API_ENDPOINT +:+ "React";
       stories := initialState; localStorage := ∅ |}
  = ({| mounted := false;
        current := {| searchTerm := "React"; App.url := API_ENDPOINT +:+ "React";
                      stories := {| data := VUndefined; isLoading := false;
                                    isError := false |};
                      localStorage := ∅ |} |},
     [EvDispatch INIT; EvGet (API_ENDPOINT +:+ "React");
      EvDispatch (SUCCESS VUndefined); EvDispatch FAILURE],
     Return ()).
Proof. reflexivity. Qed.

End FetchClaims.

(** ** The persisted search term *)

Section PersistClaims.

Implicit Types (storage : gmap string string).

Lemma truthy_nonempty (s : string) : truthy s = true ↔ s ≠ "".
Proof. destruct s; cbn; split; congruence. Qed.

Lemma js_or_truthy (a : option string) (b : string) :
  truthy b = true → truthy (js_or a b) = true.
Proof. intros Hb. destruct a as [s|]; cbn; [|done]. by destruct (truthy s) eqn:Hs. Qed.

Lemma mount_value storage (key initialState : string) :
  hookValue (useSemiPersistentState mountCells storage key initialState)
  = js_or (getItem storage key) initialState.
Proof. reflexivity. Qed.

(** After the first render, the state cell decides the value: what is in
    storage no longer matters. *)
Lemma rerender_value storage (key initialState v : string) deps :
  hookValue (useSemiPersistentState {| stateCell := Some v; depsCell := deps |}
                                    storage key initialState)
  = v.
Proof. reflexivity. Qed.

(** Every change of the value is written back under the key. *)
Lemma changed_value_is_written storage (key initialState v : string) cells :
  depsCell cells ≠ Some (v, key) →
  getItem (hookStorage (useSemiPersistentState (setValue v cells) storage key initialState))
          key
  = Some v.
Proof.
  intros Hd. unfold useSemiPersistentState, setValue; cbn.
  destruct (depsCell cells) as [d|]; cbn.
  - rewrite bool_decide_eq_false_2 by congruence. cbn. apply lookup_insert_eq.
  - apply lookup_insert_eq.
Qed.

(** C6. The first render of [useSemiPersistentState("search", "React")]
    calls [getItem] once; when storage holds "Rust" under "search" the
    search term is "Rust" and not "React"; when storage holds nothing
    under "search" the search term is "React". *)
Theorem initial_search_term storage :
  let hook := useSemiPersistentState mountCells storage "search" "React" in
  count_reads (hookOps hook) = 1
  ∧ (getItem storage "search" = Some "Rust" →
     hookValue hook = "Rust" ∧ hookValue hook ≠ "React")
  ∧ (getItem storage "search" = None → hookValue hook = "React").
Proof.
  cbn zeta. rewrite mount_value. split; [reflexivity|].
  split; intros ->; cbn; [split; [reflexivity | discriminate] | reflexivity].
Qed.

Lemma initial_search_term_witness :
  hookValue (useSemiPersistentState mountCells {[ "search" := "Rust" ]} "search" "React")
  = "Rust"
  ∧ hookValue (useSemiPersistentState mountCells ∅ "search" "React") = "React".
Proof.
  split.
  - apply (initial_search_term {[ "search" := "Rust" ]}). vm_compute. reflexivity.
  - apply (initial_search_term ∅). vm_compute. reflexivity.
Defined.

(** C10. When storage holds the empty string under "search", the first
    render gives "React", not the stored value; a stored value is the
    initial search term exactly when it is not empty (or is "React"
    itself). *)
Theorem empty_stored_term_gives_default storage (v : string) :
  getItem storage "search" = Some v →
  let hook := useSemiPersistentState mountCells storage "search" "React" in
  (v = "" → hookValue hook = "React" ∧ hookValue hook ≠ v)
  ∧ (v ≠ "" → hookValue hook = v).
Proof.
  intros Hv. cbn zeta. rewrite mount_value, Hv. split.
  - intros ->. cbn. split; [reflexivity | discriminate].
  - intros Hne. cbn. apply truthy_nonempty in Hne. by rewrite Hne.
Qed.

Lemma empty_stored_term_gives_default_witness :
  hookValue (useSemiPersistentState mountCells {[ "search" := "" ]} "search" "React")
  = "React".
Proof.
  apply (empty_stored_term_gives_default {[ "search" := "" ]} "");
    [vm_compute; reflexivity | reflexivity].
Defined.

End PersistClaims.

(** ** The application: query URL and submit control *)

Section AppClaims.

Import App.
Implicit Types (st : AppState) (e : UiEvent).

Lemma deps_unchanged {D} `{EqDecision D} (d : D) : deps_changed (Some d) d = false.
Proof. unfold deps_changed. by rewrite bool_decide_eq_true_2. Qed.

Lemma dispatchToApp_frame (actions : list Action) st st' :
  dispatchToApp actions st = Return st' →
  searchTerm st' = searchTerm st ∧ App.url st' = App.url st
  ∧ localStorage st' = localStorage st.
Proof.
  unfold dispatchToApp. destruct (dispatchAll (stories st) actions) as [s|err]; cbn.
  - by intros [= <-].
  - discriminate.
Qed.

(** The part of [handleFetchStories] before its [await] is the dispatch of
    FETCH_INIT, which the reducer always accepts. *)
Lemma fetch_start_returns (u : string) st :
  dispatchToApp (dispatched_before_await (handleFetchStories u)) st
  = Return (set_stories {| data := data (stories st); isLoading := true;
                           isError := false |} st).
Proof. reflexivity. Qed.

Lemma step_input st (v : string) :
  ∃ st', step st (InputChange v) = (Return st', [])
         ∧ searchTerm st' = v ∧ App.url st' = App.url st
         ∧ stories st' = stories st.
Proof.
  cbn [step]. unfold commit. cbn [handleSearchInput App.url searchTerm].
  rewrite deps_unchanged. by eexists.
Qed.

Lemma step_submit st :
  ∃ st' requested,
    step st SubmitForm = (Return st', requested)
    ∧ App.url st' = API_ENDPOINT +:+ searchTerm st
    ∧ searchTerm st' = searchTerm st
    ∧ (requested = [] ∨ requested = [API_ENDPOINT +:+ searchTerm st]).
Proof.
  cbn [step]. unfold commit. cbn [handleSearchSubmit App.url searchTerm].
  destruct (deps_changed (Some (App.url st)) (API_ENDPOINT +:+ searchTerm st)).
  - rewrite fetch_start_returns. do 2 eexists. split; [reflexivity|]. cbn. eauto.
  - do 2 eexists. split; [reflexivity|]. cbn. eauto.
Qed.

Lemma step_other_keeps_url st e st' (requested : list string) :
  e ≠ SubmitForm →
  step st e = (Return st', requested) →
  App.url st' = App.url st ∧ requested = [].
Proof.
  intros Hne. destruct e as [v| |item|u o]; [| done | |].
  - destruct (step_input st v) as (st1 & -> & _ & Hu & _). by intros [= <- <-].
  - cbn [step]. unfold handleRemoveStory. intros [= Hr <-].
    by apply dispatchToApp_frame in Hr as (_ & Hu & _).
  - rewrite step_FetchSettled. intros [= Hr <-].
    by apply dispatchToApp_frame in Hr as (_ & Hu & _).
Qed.

(** C8. A keystroke is always handled, sets the search term to the typed
    value and leaves the query URL as it was; a submission is always
    handled and sets the query URL to [API_ENDPOINT] followed by the
    current search term; no other event changes the query URL. *)
Theorem url_changes_only_on_submit st :
  (∀ v, ∃ st', step st (InputChange v) = (Return st', [])
               ∧ searchTerm st' = v ∧ App.url st' = App.url st)
  ∧ (∃ st' requested, step st SubmitForm = (Return st', requested)
                      ∧ App.url st' = API_ENDPOINT +:+ searchTerm st)
  ∧ (∀ e st' requested,
        e ≠ SubmitForm →
        step st e = (Return st', requested) →
        App.url st' = App.url st).
Proof.
  split; [|split].
  - intros v. destruct (step_input st v) as (st' & H1 & H2 & H3 & _). eauto.
  - destruct (step_submit st) as (st' & requested & H1 & H2 & _). eauto.
  - intros e st' requested Hne Hstep.
    by destruct (step_other_keeps_url st e st' requested Hne Hstep).
Qed.

Lemma url_changes_only_on_submit_witness :
  InputChange "Go" ≠ SubmitForm
  ∧ App.url {| searchTerm := "Go"; App.url := API_ENDPOINT +:+ "React";
               stories := initialState;
               localStorage := setItem "search" "Go" {[ "search" := "Rust" ]} |}
    = API_ENDPOINT +:+ "React".
Proof.
  split; [discriminate|].
  apply (proj2 (proj2 (url_changes_only_on_submit
                         {| searchTerm := "Rust"; App.url := API_ENDPOINT +:+ "React";
                            stories := initialState;
                            localStorage := {[ "search" := "Rust" ]} |}))
               (InputChange "Go") _ []);
    [discriminate | reflexivity].
Defined.

Lemma submitDisabled_iff_empty (term : string) :
  submitDisabled (SearchForm term) = true ↔ term = "".
Proof. destruct term; cbn; split; congruence. Qed.

(** C9. The submit control is disabled exactly when the search term is the
    empty string. With an empty search term the submission is not offered,
    no interaction can begin with it, and no event that is offered issues
    a request; with a non-empty search term the control is enabled and
    the submission is offered. *)
Theorem submit_disabled_iff_empty_term st :
  (submitDisabled (SearchForm (searchTerm st)) = true ↔ searchTerm st = "")
  ∧ (searchTerm st = "" →
     offered st SubmitForm = false
     ∧ (∀ rest, interact st (SubmitForm :: rest) = None)
     ∧ (∀ e, offered st e = true → (step st e).2 = []))
  ∧ (searchTerm st ≠ "" →
     submitDisabled (SearchForm (searchTerm st)) = false
     ∧ offered st SubmitForm = true).
Proof.
  split; [apply submitDisabled_iff_empty|]. split.
  - intros Hempty.
    assert (offered st SubmitForm = false) as Hoff by (cbn; by rewrite Hempty).
    split; [exact Hoff|]. split.
    + intros rest. cbn [interact]. by rewrite Hoff.
    + intros e He. destruct e as [v| |item|u o]; [| congruence | reflexivity | reflexivity].
      by destruct (step_input st v) as (st' & -> & _).
  - intros Hne. apply truthy_nonempty in Hne. cbn. by rewrite Hne.
Qed.

Lemma submit_disabled_iff_empty_term_witness :
  offered {| searchTerm := ""; App.url := API_ENDPOINT +:+ "React";
             stories := initialState; localStorage := {[ "search" := "" ]} |}
          SubmitForm = false
  ∧ offered {| searchTerm := "Rust"; App.url := API_ENDPOINT +:+ "React";
               stories := initialState; localStorage := {[ "search" := "Rust" ]} |}
            SubmitForm = true.
Proof.
  split.
  - apply (proj1 (proj2 (submit_disabled_iff_empty_term
                           {| searchTerm := ""; App.url := API_ENDPOINT +:+ "React";
                              stories := initialState;
                              localStorage := {[ "search" := "" ]} |}))).
    reflexivity.
  - apply (proj2 (proj2 (submit_disabled_iff_empty_term
                           {| searchTerm := "Rust"; App.url := API_ENDPOINT +:+ "React";
                              stories := initialState;
                              localStorage := {[ "search" := "Rust" ]} |}))).
    discriminate.
Defined.

(** Typing "Rust" over "React" and submitting: the keystroke writes the term
    to storage and requests nothing; the submission requests the new URL and
    marks the stories as loading. *)
Example type_then_submit :
  interact {| searchTerm := "React"; App.url := API_ENDPOINT +:+ "React";
              stories := initialState; localStorage := {[ "search" := "React" ]} |}
           [InputChange "Rust"; SubmitForm]
  = Some (Return {| searchTerm := "Rust"; App.url := API_ENDPOINT +:+ "Rust";
                    stories := {| data := VArray []; isLoading := true;
                                  isError := false |};
                    localStorage := {[ "search" := "Rust" ]} |},
          [API_ENDPOINT +:+ "Rust"]).
Proof. vm_compute. reflexivity. Qed.

Example clear_then_submit_not_offered :
  interact {| searchTerm := "React"; App.url := API_ENDPOINT +:+ "React";
              stories := initialState; localStorage := {[ "search" := "React" ]} |}
           [InputChange ""; SubmitForm]
  = None.
Proof. vm_compute. reflexivity. Qed.

(** The search term of a freshly mounted application is never empty, and
    the mount requests the URL made from it. *)
Lemma mount_returns (storage : gmap string string) :
  ∃ st, mount storage = (Return st, [API_ENDPOINT +:+ searchTerm st])
        ∧ searchTerm st = js_or (getItem storage "search") "React"
        ∧ App.url st = API_ENDPOINT +:+ searchTerm st
        ∧ searchTerm st ≠ ""
        ∧ getItem (localStorage st) "search" = Some (searchTerm st).
Proof.
  exists {| searchTerm := js_or (getItem storage "search") "React";
            App.url := API_ENDPOINT +:+ js_or (getItem storage "search") "React";
            stories := {| data := VArray []; isLoading := true; isError := false |};
            localStorage :=
              setItem "search" (js_or (getItem storage "search") "React") storage |}.
  split; [reflexivity|].
  cbn. split; [reflexivity|]. split; [reflexivity|]. split.
  - apply truthy_nonempty, js_or_truthy. reflexivity.
  - apply lookup_insert_eq.
Qed.

(** Every request of an interaction carries a non-empty search term. *)
Lemma interact_requests_nonempty (events : list UiEvent) st final requested :
  interact st events = Some (final, requested) →
  Forall query_of_nonempty_term requested.
Proof.
  revert st final requested.
  induction events as [|e events IH]; intros st final requested; cbn [interact].
  - intros [= <- <-]. constructor.
  - destruct (offered st e) eqn:Hoff; [|discriminate].
    assert (Forall query_of_nonempty_term (step st e).2) as Hstep.
    { destruct e as [v| |item|u o]; try (cbn; constructor).
      - destruct (step_input st v) as (st' & -> & _). constructor.
      - destruct (step_submit st) as (st' & rq & -> & _ & _ & [->| ->]); cbn.
        + constructor.
        + repeat constructor. exists (searchTerm st). split; [|reflexivity].
          apply truthy_nonempty. cbn in Hoff. by apply negb_true_iff, negb_false_iff in Hoff. }
    destruct (step st e) as [[st'|err] rq]; cbn in Hstep.
    + destruct (interact st' events) as [[final' more]|] eqn:Hrest; [|discriminate].
      cbn. intros [= <- <-]. apply Forall_app. split; [exact Hstep|]. by eapply IH.
    + by intros [= <- <-].
Qed.

End AppClaims.


(** ** More on the reducer *)

Section ReducerRuns.

Implicit Types (state : State) (action : Action) (item story : Story).

Lemma dispatchAll_app state (xs ys : list Action) :
  dispatchAll state (xs ++ ys)%list
  = state' ← dispatchAll state xs; dispatchAll state' ys.
Proof.
  revert state. induction xs as [|a xs IH]; intros state; [reflexivity|].
  cbn. destruct (storiesReducer state a) as [s1|e]; cbn; [apply IH | reflexivity].
Qed.

Lemma filter_swap {A} (P Q : A → Prop) `{∀ x, Decision (P x)} `{∀ x, Decision (Q x)}
    (l : list A) :
  filter P (filter Q l) = filter Q (filter P l).
Proof.
  induction l as [|x l IH]; [reflexivity|].
  rewrite !(filter_cons _ x l).
  destruct (decide (Q x)) as [HQ|HQ], (decide (P x)) as [HP|HP];
    rewrite ?filter_cons, ?decide_True, ?decide_False by done; by rewrite ?IH.
Qed.

Lemma filter_twice {A} (P : A → Prop) `{∀ x, Decision (P x)} (l : list A) :
  filter P (filter P l) = filter P l.
Proof.
  apply filter_all_kept, Forall_forall. intros x Hx.
  by apply list_elem_of_filter in Hx as [HP _].
Qed.

(** REMOVE_STORY with a story as payload, on any state. *)
Lemma reducer_remove state item :
  storiesReducer state (toAction (REMOVE_ITEM item))
  = match data state with
    | VArray l =>
        Return {| data := VArray (filter (fun story => objectID story ≠ objectID item) l);
                  isLoading := isLoading state; isError := isError state |}
    | VUndefined | VObject _ => Throw TypeError
    end.
Proof.
  destruct state as [[|l|o] ld er]; [reflexivity | | reflexivity].
  cbn [toAction data]. by rewrite reducer_REMOVE_STORY, filter_data_object.
Qed.

(** Without a payload the callback throws at the first story it is asked
    about; a payload without [objectID] differs from every story. *)
Lemma array_filter_no_payload (s : Story) (l : list Story) :
  array_filter (fun story => id ← get_objectID VUndefined;
                             Return (strict_neq id (objectID story))) (s :: l)
  = Throw TypeError.
Proof. reflexivity. Qed.

Lemma array_filter_array_payload (items l : list Story) :
  array_filter (fun story => id ← get_objectID (VArray items);
                             Return (strict_neq id (objectID story))) l
  = Return l.
Proof.
  induction l as [|s l IH]; [reflexivity|]. cbn [array_filter]. by rewrite IH.
Qed.

(** X1. Removing a story whose identifier no record of [data] carries gives
    the state back unchanged. *)
Theorem remove_absent_is_identity (l : list Story) (ld er : bool) item :
  Forall (fun story => objectID story ≠ objectID item) l →
  storiesReducer {| data := VArray l; isLoading := ld; isError := er |}
                 (toAction (REMOVE_ITEM item))
  = Return {| data := VArray l; isLoading := ld; isError := er |}.
Proof.
  intros Habsent. rewrite reducer_remove. cbn [data isLoading isError].
  by rewrite filter_all_kept.
Qed.

Lemma remove_absent_is_identity_witness :
  storiesReducer
    {| data := VArray [story_of "1"; story_of "2"]; isLoading := false; isError := false |}
    (toAction (REMOVE_ITEM (story_of "7")))
  = Return {| data := VArray [story_of "1"; story_of "2"];
              isLoading := false; isError := false |}.
Proof.
  apply remove_absent_is_identity. repeat constructor; discriminate.
Defined.

(** X2. Dispatching the same removal twice has the effect of dispatching it
    once, on every state (also where the reducer throws). *)
Theorem remove_twice_is_once state item :
  dispatchAll state [toAction (REMOVE_ITEM item); toAction (REMOVE_ITEM item)]
  = dispatchAll state [toAction (REMOVE_ITEM item)].
Proof.
  cbn [dispatchAll]. rewrite reducer_remove.
  destruct (data state) as [|l|o]; [reflexivity | | reflexivity].
  cbn [mbind completion_bind]. rewrite reducer_remove. cbn [data isLoading isError].
  by rewrite filter_twice.
Qed.

(** X3. Two removals give the same result in either order, on every state. *)
Theorem removals_commute state (a b : Story) :
  dispatchAll state [toAction (REMOVE_ITEM a); toAction (REMOVE_ITEM b)]
  = dispatchAll state [toAction (REMOVE_ITEM b); toAction (REMOVE_ITEM a)].
Proof.
  cbn [dispatchAll]. rewrite !reducer_remove.
  destruct (data state) as [|l|o]; [reflexivity | | reflexivity].
  cbn [mbind completion_bind]. rewrite !reducer_remove. cbn [data isLoading isError].
  by rewrite filter_swap.
Qed.

(** X4. REMOVE_STORY throws a [TypeError] exactly when [data] is not an
    array, or when the action has no payload and [data] holds at least one
    story; in every other case it returns a state. *)
Theorem remove_story_throws_iff state (p : value) :
  let action := {| type := "REMOVE_STORY"; payload := p |} in
  let bad := is_array (data state) = false
             ∨ (p = VUndefined ∧ ∃ s l, data state = VArray (s :: l)) in
  (storiesReducer state action = Throw TypeError ↔ bad)
  ∧ ((∃ state', storiesReducer state action = Return state') ↔ ¬ bad).
Proof.
  cbn zeta. rewrite reducer_REMOVE_STORY. unfold filter_data. cbn [payload].
  destruct state as [[|l|o] ld er]; cbn [data is_array].
  - split; split; [by left | done | by intros [? ?] | intros H; exfalso; apply H; by left].
  - destruct p as [|items|item].
    + destruct l as [|s l].
      * split; split; [discriminate | intros [?|(_ & ? & ? & ?)]; discriminate
                      | intros _ [?|(_ & ? & ? & ?)]; discriminate | by eexists].
      * rewrite array_filter_no_payload.
        split; split; [intros _; right; eauto | done | by intros [? ?]
                      | intros H; exfalso; apply H; right; eauto].
    + rewrite array_filter_array_payload.
      split; split; [discriminate | intros [?|(? & _)]; discriminate
                    | intros _ [?|(? & _)]; discriminate | by eexists].
    + change (array_filter _ l) with
        (array_filter (fun story => Return (strict_neq (Some (objectID item)) (objectID story))) l).
      rewrite array_filter_by_id.
      split; split; [discriminate | intros [?|(? & _)]; discriminate
                    | intros _ [?|(? & _)]; discriminate | by eexists].
  - split; split; [by left | done | by intros [? ?] | intros H; exfalso; apply H; by left].
Qed.

End ReducerRuns.

Section ReducerHistory.

Implicit Types (state : State) (item story : Story) (ds rs : list Dispatch).

Lemma removes_keep_flags rs state (l : list Story) :
  data state = VArray l →
  Forall (fun r => is_remove r = true) rs →
  ∃ l', dispatchAll state (toAction <$> rs)
        = Return {| data := VArray l'; isLoading := isLoading state;
                    isError := isError state |}.
Proof.
  intros Hl Hrs. revert state l Hl.
  induction Hrs as [|r rs Hr _ IH]; intros state l Hl.
  - exists l. destruct state; cbn in *; by subst.
  - destruct r as [| | |item]; try discriminate.
    cbn [fmap list_fmap dispatchAll]. rewrite reducer_remove, Hl.
    cbn [mbind completion_bind].
    destruct (IH {| data := VArray (filter (fun story => objectID story ≠ objectID item) l);
                    isLoading := isLoading state; isError := isError state |}
                 _ eq_refl) as [l' Hl'].
    exists l'. exact Hl'.
Qed.

Lemma latest_hits_sublist ds state (l current : list Story) :
  data state = VArray l →
  sublist l current →
  ∃ state' l', dispatchAll state (toAction <$> ds) = Return state'
               ∧ data state' = VArray l'
               ∧ sublist l' (latest_hits current ds).
Proof.
  revert state l current.
  induction ds as [|d ds IH]; intros state l current Hl Hsub.
  - by exists state, l.
  - destruct d as [|hits| |item]; cbn [fmap list_fmap dispatchAll latest_hits toAction].
    + rewrite reducer_FETCH_INIT. cbn [mbind completion_bind]. by eapply IH.
    + rewrite reducer_FETCH_SUCCESS. cbn [mbind completion_bind]. by eapply IH.
    + rewrite reducer_FETCH_FAILURE. cbn [mbind completion_bind]. by eapply IH.
    + change {| type := "REMOVE_STORY"; payload := VObject item |}
        with (toAction (REMOVE_ITEM item)).
      rewrite reducer_remove, Hl. cbn [mbind completion_bind].
      eapply IH; [reflexivity|].
      etrans; [apply sublist_filter | exact Hsub].
Qed.

(** X5. The flags after a run depend only on its last dispatch that is not
    a removal: loading after FETCH_INIT, error after FETCH_FAILURE, neither
    after FETCH_SUCCESS; the removals that follow do not change them. *)
Theorem flags_follow_last_fetch_dispatch ds (d : Dispatch) rs :
  is_remove d = false →
  Forall (fun r => is_remove r = true) rs →
  ∃ state,
    dispatchAll initialState (toAction <$> (ds ++ d :: rs)%list) = Return state
    ∧ isLoading state = match d with FETCH_INIT => true | _ => false end
    ∧ isError state = match d with FETCH_FAILURE => true | _ => false end.
Proof.
  intros Hd Hrs.
  destruct (well_formed_run ds initialState well_formed_initial)
    as (s1 & Hs1 & [l1 Hl1] & _).
  rewrite fmap_app, dispatchAll_app, Hs1. cbn [mbind completion_bind].
  cbn [fmap list_fmap dispatchAll].
  destruct d as [|hits| |item]; try discriminate; cbn [toAction].
  - rewrite reducer_FETCH_INIT. cbn [mbind completion_bind].
    edestruct (removes_keep_flags rs) as [l' ->]; [exact Hl1 | exact Hrs |].
    by eexists.
  - rewrite reducer_FETCH_SUCCESS. cbn [mbind completion_bind].
    edestruct (removes_keep_flags rs) as [l' ->]; [reflexivity | exact Hrs |].
    by eexists.
  - rewrite reducer_FETCH_FAILURE. cbn [mbind completion_bind].
    edestruct (removes_keep_flags rs) as [l' ->]; [exact Hl1 | exact Hrs |].
    by eexists.
Qed.

Lemma flags_follow_last_fetch_dispatch_witness :
  ∃ state,
    dispatchAll initialState
      (toAction <$> [FETCH_INIT; FETCH_SUCCESS [story_of "1"; story_of "2"];
                     FETCH_FAILURE; REMOVE_ITEM (story_of "1")])
    = Return state
    ∧ isLoading state = false
    ∧ isError state = true.
Proof.
  apply (flags_follow_last_fetch_dispatch
           [FETCH_INIT; FETCH_SUCCESS [story_of "1"; story_of "2"]]
           FETCH_FAILURE [REMOVE_ITEM (story_of "1")]).
  - reflexivity.
  - repeat constructor.
Defined.

(** X6. After any run from the initial state, [data] is an array whose
    stories all come, in their order, from the payload of the last
    FETCH_SUCCESS of the run (and is empty when there was none): the
    reducer never adds, reorders or brings back a story. *)
Theorem data_comes_from_latest_success ds :
  ∃ state l,
    dispatchAll initialState (toAction <$> ds) = Return state
    ∧ data state = VArray l
    ∧ sublist l (latest_hits [] ds).
Proof. by apply (latest_hits_sublist ds initialState [] []). Qed.

End ReducerHistory.

(** ** The fetch handler and the reducer together *)

Section FetchLifecycle.

Import App.
Implicit Types (st : AppState) (o : axios.Settled) (u : string).

Lemma dispatched_before_await_handleFetchStories u :
  dispatched_before_await (handleFetchStories u) = [INIT].
Proof. reflexivity. Qed.



End FetchLifecycle.

(** ** More on the persisted state *)

Section PersistRoundTrips.

Implicit Types (storage : gmap string string) (key initialState v : string).

Lemma js_or_same (s b : string) : js_or (Some (js_or (Some s) b)) b = js_or (Some s) b.
Proof. cbn. destruct (truthy s) eqn:Hs; [by rewrite Hs | by destruct (truthy b)]. Qed.

Lemma js_or_js_or (a : option string) (b : string) :
  js_or (Some (js_or a b)) b = js_or a b.
Proof.
  destruct a as [s|]; [apply js_or_same|]. cbn. by destruct (truthy b).
Qed.

(** X8. The first render writes its value back: afterwards storage holds
    the value under the key (also when nothing was stored, or when the
    empty string was), the other keys are as before, and the storage was
    read once and written once. *)
Theorem first_render_writes_back storage key initialState :
  let hook := useSemiPersistentState mountCells storage key initialState in
  getItem (hookStorage hook) key = Some (hookValue hook)
  ∧ delete key (hookStorage hook) = delete key storage
  ∧ hookOps hook = [OpGetItem key; OpSetItem key (hookValue hook)].
Proof.
  cbn. unfold getItem, setItem. split; [apply lookup_insert_eq|].
  split; [apply delete_insert_eq | reflexivity].
Qed.

(** X9. Mounting again over the storage a first render left gives the same
    value, for every storage content and every default. *)
Theorem remount_gives_same_value storage key initialState :
  let hook := useSemiPersistentState mountCells storage key initialState in
  hookValue (useSemiPersistentState mountCells (hookStorage hook) key initialState)
  = hookValue hook.
Proof.
  cbn zeta. rewrite !mount_value.
  replace (getItem (hookStorage (useSemiPersistentState mountCells storage key initialState)) key)
    with (Some (js_or (getItem storage key) initialState))
    by (symmetry; apply lookup_insert_eq).
  apply js_or_js_or.
Qed.

(** X10. A render after which neither the value nor the key changed keeps
    the value, whatever storage holds by then, and writes nothing: a change
    made to storage from outside is neither picked up nor overwritten. *)
Theorem rerender_is_stable (cells : HookCells) storage storage' key initialState :
  let first := useSemiPersistentState cells storage key initialState in
  let again := useSemiPersistentState (hookCells first) storage' key initialState in
  hookValue again = hookValue first
  ∧ hookStorage again = storage'
  ∧ hookOps again = [OpGetItem key]
  ∧ hookCells again = hookCells first.
Proof.
  cbn zeta.
  set (first := useSemiPersistentState cells storage key initialState).
  unfold useSemiPersistentState at 1 2 3 4.
  replace (deps_changed (depsCell (hookCells first))
             (useState (stateCell (hookCells first))
                       (js_or (getItem storage' key) initialState), key))
    with false by (symmetry; apply (deps_unchanged (hookValue first, key))).
  by cbn.
Qed.

(** X11. After [setValue(v)] the next render has value [v] and storage
    holds [v] under the key; a later mount over that storage starts with
    [v] when [v] is not empty, and with the default when it is. *)
Theorem set_value_then_reload storage key initialState v :
  let first := useSemiPersistentState mountCells storage key initialState in
  let next := useSemiPersistentState (setValue v (hookCells first)) (hookStorage first)
                                     key initialState in
  hookValue next = v
  ∧ getItem (hookStorage next) key = Some v
  ∧ hookValue (useSemiPersistentState mountCells (hookStorage next) key initialState)
    = (if truthy v then v else initialState).
Proof.
  cbn zeta.
  assert (getItem (hookStorage
                     (useSemiPersistentState
                        (setValue v (hookCells
                                       (useSemiPersistentState mountCells storage key
                                                               initialState)))
                        (hookStorage
                           (useSemiPersistentState mountCells storage key initialState))
                        key initialState)) key = Some v) as Hstored.
  { cbn. destruct (decide ((js_or (getItem storage key) initialState, key) = (v, key)))
      as [Heq|Hne].
    - rewrite bool_decide_eq_true_2 by exact Heq. cbn.
      injection Heq as ->. apply lookup_insert_eq.
    - rewrite bool_decide_eq_false_2 by exact Hne. cbn. apply lookup_insert_eq. }
  split; [reflexivity|]. split; [exact Hstored|].
  rewrite mount_value, Hstored. reflexivity.
Qed.

(** X12. When the hook is rendered under another key, the value stays, is
    written under the new key, and the entry under the old key is left in
    storage. *)
Theorem key_change_copies_value storage key key' initialState :
  key ≠ key' →
  let first := useSemiPersistentState mountCells storage key initialState in
  let next := useSemiPersistentState (hookCells first) (hookStorage first)
                                     key' initialState in
  hookValue next = hookValue first
  ∧ getItem (hookStorage next) key' = Some (hookValue first)
  ∧ getItem (hookStorage next) key = Some (hookValue first).
Proof.
  intros Hne. cbn. rewrite bool_decide_eq_false_2 by congruence. cbn.
  unfold getItem, setItem. split; [reflexivity|].
  split; [apply lookup_insert_eq|].
  rewrite lookup_insert_ne by congruence. apply lookup_insert_eq.
Qed.

Lemma key_change_copies_value_witness :
  getItem (hookStorage
             (useSemiPersistentState
                (hookCells (useSemiPersistentState mountCells ∅ "search" "React"))
                (hookStorage (useSemiPersistentState mountCells ∅ "search" "React"))
                "query" "React"))
          "search"
  = Some "React".
Proof.
  apply (proj2 (proj2 (key_change_copies_value ∅ "search" "query" "React"
                                               ltac:(discriminate)))).
Defined.

End PersistRoundTrips.

(** ** More on the application *)

Section AppRuns.

Import App.
Implicit Types (st : AppState) (e : UiEvent) (storage : gmap string string).

(** The state and the requests after the effects of a render. *)
Lemma commit_spec (old new : AppState) :
  commit old new
  = (Return {| searchTerm := searchTerm new;
               App.url := App.url new;
               stories := if bool_decide (App.url old = App.url new)
                          then stories new
                          else {| data := data (stories new); isLoading := true;
                                  isError := false |};
               localStorage := if bool_decide (searchTerm old = searchTerm new)
                               then localStorage new
                               else setItem "search" (searchTerm new) (localStorage new) |},
     if bool_decide (App.url old = App.url new) then [] else [App.url new]).
Proof.
  unfold commit, deps_changed.
  assert (bool_decide ((searchTerm old, "search") = (searchTerm new, "search"))
          = bool_decide (searchTerm old = searchTerm new)) as ->.
  { apply bool_decide_ext. split; [by intros [= ->] | by intros ->]. }
  destruct (bool_decide (App.url old = App.url new)),
           (bool_decide (searchTerm old = searchTerm new)); reflexivity.
Qed.

Lemma step_stories st e st' (requested : list string) :
  step st e = (Return st', requested) →
  ∃ actions, dispatchAll (stories st) actions = Return (stories st').
Proof.
  destruct e as [v| |item|u o]; [cbn [step] .. | rewrite step_FetchSettled].
  - rewrite commit_spec. cbn. rewrite bool_decide_eq_true_2 by reflexivity.
    intros [= <- _]. by exists [].
  - rewrite commit_spec. cbn. intros [= <- _]. cbn.
    destruct (bool_decide _); [by exists [] | by exists [INIT]].
  - unfold handleRemoveStory, dispatchToApp.
    destruct (dispatchAll (stories st) _) as [s|err] eqn:Hd; cbn; [|discriminate].
    intros [= <- _]. eexists. exact Hd.
  - unfold dispatchToApp.
    destruct (dispatchAll (stories st) _) as [s|err] eqn:Hd; cbn; [|discriminate].
    intros [= <- _]. eexists. exact Hd.
Qed.

Lemma step_storage st e st' (requested : list string) :
  step st e = (Return st', requested) →
  getItem (localStorage st) "search" = Some (searchTerm st) →
  getItem (localStorage st') "search" = Some (searchTerm st')
  ∧ delete "search" (localStorage st') = delete "search" (localStorage st).
Proof.
  intros Hstep Hinv.
  destruct e as [v| |item|u o];
    [cbn [step] in Hstep .. | rewrite step_FetchSettled in Hstep].
  - rewrite commit_spec in Hstep. cbn in Hstep. injection Hstep as <- _. cbn.
    case_bool_decide as Hv.
    + by rewrite <- Hv.
    + unfold getItem, setItem. by rewrite lookup_insert_eq, delete_insert_eq.
  - rewrite commit_spec in Hstep. cbn in Hstep. injection Hstep as <- _. cbn.
    by rewrite bool_decide_eq_true_2.
  - injection Hstep as Hr _. apply dispatchToApp_frame in Hr as (-> & _ & ->). done.
  - injection Hstep as Hr _. apply dispatchToApp_frame in Hr as (-> & _ & ->). done.
Qed.

Lemma interact_invariant (P : AppState → Prop) :
  (∀ st e st' requested, step st e = (Return st', requested) → P st → P st') →
  ∀ events st st' requested,
    interact st events = Some (Return st', requested) → P st → P st'.
Proof.
  intros Hstep. induction events as [|e events IH]; intros st st' requested; cbn [interact].
  - by intros [= <- _].
  - destruct (offered st e); [|discriminate].
    destruct (step st e) as [[st1|err] rq] eqn:Hs; [|discriminate].
    destruct (interact st1 events) as [[final more]|] eqn:Hrest; [|discriminate].
    cbn. intros [= -> _] HP. eapply IH; [exact Hrest|]. by eapply Hstep.
Qed.

(** X13. A submission that leaves the query URL as it is changes nothing
    and requests nothing; one that changes it requests exactly the new URL
    and leaves the stories loading, with the error cleared and [data]
    kept. *)
Theorem submit_requests_only_a_new_url st :
  (App.url st = API_ENDPOINT +:+ searchTerm st →
   step st SubmitForm = (Return st, []))
  ∧ (App.url st ≠ API_ENDPOINT +:+ searchTerm st →
     step st SubmitForm
     = (Return {| searchTerm := searchTerm st;
                  App.url := API_ENDPOINT +:+ searchTerm st;
                  stories := {| data := data (stories st); isLoading := true;
                                isError := false |};
                  localStorage := localStorage st |},
        [API_ENDPOINT +:+ searchTerm st])).
Proof.
  cbn [step]. rewrite commit_spec. cbn [handleSearchSubmit searchTerm App.url stories
                                        localStorage].
  rewrite (bool_decide_eq_true_2 (searchTerm st = searchTerm st)) by reflexivity.
  split; intros Hu.
  - rewrite bool_decide_eq_true_2 by exact Hu. rewrite <- Hu. by destruct st.
  - by rewrite bool_decide_eq_false_2 by exact Hu.
Qed.

Lemma submit_requests_only_a_new_url_witness :
  step {| searchTerm := "React"; App.url := API_ENDPOINT +:+ "React";
          stories := initialState; localStorage := {[ "search" := "React" ]} |}
       SubmitForm
  = (Return {| searchTerm := "React"; App.url := API_ENDPOINT +:+ "React";
               stories := initialState; localStorage := {[ "search" := "React" ]} |}, [])
  ∧ step {| searchTerm := "Rust"; App.url := API_ENDPOINT +:+ "React";
            stories := initialState; localStorage := {[ "search" := "Rust" ]} |}
         SubmitForm
    = (Return {| searchTerm := "Rust"; App.url := API_ENDPOINT +:+ "Rust";
                 stories := {| data := VArray []; isLoading := true; isError := false |};
                 localStorage := {[ "search" := "Rust" ]} |},
       [API_ENDPOINT +:+ "Rust"]).
Proof.
  split.
  - apply (proj1 (submit_requests_only_a_new_url
                    {| searchTerm := "React"; App.url := API_ENDPOINT +:+ "React";
                       stories := initialState;
                       localStorage := {[ "search" := "React" ]} |})).
    reflexivity.
  - exact (proj2 (submit_requests_only_a_new_url
                    {| searchTerm := "Rust"; App.url := API_ENDPOINT +:+ "React";
                       stories := initialState;
                       localStorage := {[ "search" := "Rust" ]} |})
                 ltac:(discriminate)).
Defined.

End AppRuns.

Section AppInvariants.

Import App.
Implicit Types (st : AppState) (e : UiEvent) (storage : gmap string string).

Lemma mount_inversion storage st (first : list string) :
  mount storage = (Return st, first) →
  first = [API_ENDPOINT +:+ searchTerm st]
  ∧ searchTerm st ≠ ""
  ∧ searchTerm st = js_or (getItem storage "search") "React"
  ∧ getItem (localStorage st) "search" = Some (searchTerm st)
  ∧ delete "search" (localStorage st) = delete "search" storage
  ∧ stories st = {| data := VArray []; isLoading := true; isError := false |}.
Proof.
  destruct (mount_returns storage) as (st0 & Hm & Hterm & _ & Hne & Hget).
  rewrite Hm. intros [= <- <-]. repeat split; try done.
  - unfold mount in Hm. rewrite fetch_start_returns in Hm. injection Hm as <-.
    cbn. apply delete_insert_eq.
  - unfold mount in Hm. rewrite fetch_start_returns in Hm. by injection Hm as <-.
Qed.

(** X14. From the mount on, every request the application issues, the first
    one included, is for [API_ENDPOINT] followed by a search term that is
    not empty. *)
Theorem requests_carry_nonempty_term
    storage st (first : list string) (events : list UiEvent)
    (final : completion AppState) (requested : list string) :
  mount storage = (Return st, first) →
  interact st events = Some (final, requested) →
  Forall query_of_nonempty_term (first ++ requested)%list.
Proof.
  intros Hm Hrun. apply mount_inversion in Hm as (-> & Hne & _).
  apply Forall_app. split.
  - repeat constructor. by exists (searchTerm st).
  - by eapply interact_requests_nonempty.
Qed.

Lemma requests_carry_nonempty_term_witness :
  Forall query_of_nonempty_term [API_ENDPOINT +:+ "React"; API_ENDPOINT +:+ "Rust"].
Proof.
  apply (requests_carry_nonempty_term
           ∅
           {| searchTerm := "React"; App.url := API_ENDPOINT +:+ "React";
              stories := {| data := VArray []; isLoading := true; isError := false |};
              localStorage := {[ "search" := "React" ]} |}
           [API_ENDPOINT +:+ "React"]
           [InputChange ""; InputChange "Rust"; SubmitForm]
           (Return {| searchTerm := "Rust"; App.url := API_ENDPOINT +:+ "Rust";
                      stories := {| data := VArray []; isLoading := true;
                                    isError := false |};
                      localStorage := {[ "search" := "Rust" ]} |})
           [API_ENDPOINT +:+ "Rust"]).
  - vm_compute. reflexivity.
  - vm_compute. reflexivity.
Defined.

(** X15. From the mount on, storage holds the current search term under
    "search" after every event and no other key is touched; mounting again
    over that storage starts with the term when it is not empty and with
    "React" when it is. *)
Theorem storage_tracks_search_term
    storage st (first : list string) (events : list UiEvent)
    st' (requested : list string) :
  mount storage = (Return st, first) →
  interact st events = Some (Return st', requested) →
  getItem (localStorage st') "search" = Some (searchTerm st')
  ∧ delete "search" (localStorage st') = delete "search" storage
  ∧ ∃ again, (mount (localStorage st')).1 = Return again
             ∧ searchTerm again
               = (if truthy (searchTerm st') then searchTerm st' else "React").
Proof.
  intros Hm Hrun. apply mount_inversion in Hm as (_ & _ & _ & Hget & Hdel & _).
  assert (getItem (localStorage st') "search" = Some (searchTerm st')
          ∧ delete "search" (localStorage st') = delete "search" storage)
    as [Hget' Hdel'].
  { eapply (interact_invariant
              (fun s => getItem (localStorage s) "search" = Some (searchTerm s)
                        ∧ delete "search" (localStorage s) = delete "search" storage));
      [| exact Hrun | done].
    intros s e s' rq Hstep [Hg Hd].
    destruct (step_storage s e s' rq Hstep Hg) as [Hg' Hd']. split; congruence. }
  split; [exact Hget'|]. split; [exact Hdel'|].
  destruct (mount_returns (localStorage st')) as (again & Hagain & Hterm & _).
  exists again. rewrite Hagain. split; [reflexivity|].
  by rewrite Hterm, Hget'.
Qed.

Lemma storage_tracks_search_term_witness :
  getItem {[ "search" := "" ]} "search" = Some ""
  ∧ delete "search" ({[ "search" := "" ]} : gmap string string) = delete "search" ∅
  ∧ ∃ again, (mount {[ "search" := "" ]}).1 = Return again
             ∧ searchTerm again = "React".
Proof.
  assert (mount ∅
          = (Return {| searchTerm := "React"; App.url := API_ENDPOINT +:+ "React";
                       stories := {| data := VArray []; isLoading := true;
                                     isError := false |};
                       localStorage := {[ "search" := "React" ]} |},
             [API_ENDPOINT +:+ "React"])) as Hmount
    by (vm_compute; reflexivity).
  assert (interact {| searchTerm := "React"; App.url := API_ENDPOINT +:+ "React";
                      stories := {| data := VArray []; isLoading := true;
                                    isError := false |};
                      localStorage := {[ "search" := "React" ]} |}
                   [InputChange ""]
          = Some (Return {| searchTerm := ""; App.url := API_ENDPOINT +:+ "React";
                            stories := {| data := VArray []; isLoading := true;
                                          isError := false |};
                            localStorage := {[ "search" := "" ]} |},
                  [])) as Hrun
    by (vm_compute; reflexivity).
  exact (storage_tracks_search_term _ _ _ _ _ _ Hmount Hrun).
Defined.

(** X16. From the mount on, whatever the events and however the requests
    settle (also with a body that has no [hits]), a state the application
    reaches never has [isLoading] and [isError] both true. *)
Theorem app_flags_never_both_true
    storage st (first : list string) (events : list UiEvent)
    st' (requested : list string) :
  mount storage = (Return st, first) →
  interact st events = Some (Return st', requested) →
  ¬ (isLoading (stories st') = true ∧ isError (stories st') = true).
Proof.
  intros Hm Hrun. apply mount_inversion in Hm as (_ & _ & _ & _ & _ & Hst).
  assert ((isLoading (stories st') && isError (stories st')) = false) as Hflags.
  { eapply (interact_invariant
              (fun s => (isLoading (stories s) && isError (stories s)) = false));
      [| exact Hrun | by rewrite Hst].
    intros s e s' rq Hstep Hs.
    destruct (step_stories s e s' rq Hstep) as [actions Hactions].
    by eapply flags_exclusive_run. }
  intros [Hl He]. rewrite Hl, He in Hflags. discriminate.
Qed.

Lemma app_flags_never_both_true_witness :
  ¬ (isLoading {| data := VUndefined; isLoading := false; isError := false |} = true
     ∧ isError {| data := VUndefined; isLoading := false; isError := false |} = true).
Proof.
  apply (app_flags_never_both_true
           ∅
           {| searchTerm := "React"; App.url := API_ENDPOINT +:+ "React";
              stories := {| data := VArray []; isLoading := true; isError := false |};
              localStorage := {[ "search" := "React" ]} |}
           [API_ENDPOINT +:+ "React"]
           [FetchSettled (API_ENDPOINT +:+ "React")
              (axios.Fulfilled {| axios.data := axios.BodyObject VUndefined |})]
           {| searchTerm := "React"; App.url := API_ENDPOINT +:+ "React";
              stories := {| data := VUndefined; isLoading := false; isError := false |};
              localStorage := {[ "search" := "React" ]} |}
           []).
  - vm_compute. reflexivity.
  - vm_compute. reflexivity.
Defined.

End AppInvariants.

(** ** The rendered page *)

Section Page.

Import App.
Implicit Types (st : AppState) (view : AppView) (item : Story).

Lemma renderApp_loading st :
  isLoading (stories st) = true →
  renderApp st = Return {| form := SearchForm (searchTerm st);
                           errorMessage := isError (stories st);
                           body := LoadingText |}.
Proof. intros Hl. unfold renderApp. by rewrite Hl. Qed.

Lemma renderApp_list st (l : list Story) :
  isLoading (stories st) = false →
  data (stories st) = VArray l →
  renderApp st
  = Return {| form := SearchForm (searchTerm st);
              errorMessage := isError (stories st);
              body := StoryList (map (fun item => (objectID item, Item item DismissClick)) l) |}.
Proof. intros Hl Hd. unfold renderApp. by rewrite Hl, Hd. Qed.

Lemma renderApp_no_array st :
  isLoading (stories st) = false →
  is_array (data (stories st)) = false →
  renderApp st = Throw TypeError.
Proof.
  intros Hl Hd. unfold renderApp. rewrite Hl.
  by destruct (data (stories st)).
Qed.

(** A view that lists stories comes from a state that is not loading and
    whose [data] is the array of those stories. *)
Lemma renderApp_list_inv st view items :
  renderApp st = Return view →
  body view = StoryList items →
  ∃ l, isLoading (stories st) = false
       ∧ data (stories st) = VArray l
       ∧ items = map (fun item => (objectID item, Item item DismissClick)) l
       ∧ errorMessage view = isError (stories st)
       ∧ form view = SearchForm (searchTerm st).
Proof.
  unfold renderApp. destruct (isLoading (stories st)) eqn:Hl.
  - cbn. intros [= <-]. discriminate.
  - destruct (data (stories st)) as [|l|o] eqn:Hd; cbn; try discriminate.
    intros [= <-]. cbn. intros [= <-]. by exists l.
Qed.

Lemma keys_of_items (l : list Story) :
  map fst (map (fun item => (objectID item, Item item DismissClick)) l)
  = map objectID l.
Proof. rewrite map_map. reflexivity. Qed.

Lemma keys_after_filter (key : string) (l : list Story) :
  map objectID (filter (fun story => objectID story ≠ key) l)
  = filter (fun k => k ≠ key) (map objectID l).
Proof.
  induction l as [|s l IH]; [reflexivity|].
  cbn [map]. rewrite !filter_cons.
  destruct (decide (objectID s ≠ key)); cbn [map]; by rewrite IH.
Qed.

(** X18. After any run of the four dispatches on a state whose [data] is an
    array, the page renders: it lists the keys of [data] in order when the
    state is not loading, lists nothing while it is, and shows the error
    message exactly when [isError] is set. *)
Theorem page_renders_after_dispatches st (ds : list Dispatch) (l : list Story) :
  data (stories st) = VArray l →
  ∃ st' view l',
    dispatchToApp (toAction <$> ds) st = Return st'
    ∧ data (stories st') = VArray l'
    ∧ renderApp st' = Return view
    ∧ listed_keys view = (if isLoading (stories st') then [] else map objectID l')
    ∧ errorMessage view = isError (stories st').
Proof.
  intros Hl.
  destruct (latest_hits_sublist ds (stories st) l l Hl) as (s' & l' & Hrun & Hl' & _);
    [reflexivity|].
  unfold dispatchToApp. rewrite Hrun. cbn [mbind completion_bind].
  destruct (isLoading s') eqn:Hload.
  - eexists _, _, l'. split; [reflexivity|]. split; [exact Hl'|].
    split; [apply renderApp_loading; exact Hload|].
    cbn. by rewrite Hload.
  - eexists _, _, l'. split; [reflexivity|]. split; [exact Hl'|].
    split; [apply (renderApp_list _ l'); [exact Hload | exact Hl']|].
    cbn. rewrite Hload. split; [apply keys_of_items | reflexivity].
Qed.

Lemma page_renders_after_dispatches_witness :
  ∃ st' view l',
    dispatchToApp
      (toAction <$> [FETCH_INIT; FETCH_SUCCESS [story_of "1"; story_of "2"];
                     REMOVE_ITEM (story_of "1")])
      {| searchTerm := "React"; App.url := API_ENDPOINT +:+ "React";
         stories := initialState; localStorage := ∅ |}
    = Return st'
    ∧ data (stories st') = VArray l'
    ∧ renderApp st' = Return view
    ∧ listed_keys view = (if isLoading (stories st') then [] else map objectID l')
    ∧ errorMessage view = isError (stories st').
Proof.
  apply (page_renders_after_dispatches
           {| searchTerm := "React"; App.url := API_ENDPOINT +:+ "React";
              stories := initialState; localStorage := ∅ |}
           _ []).
  reflexivity.
Defined.

(** X19. A response that is fulfilled with a body whose [hits] is not an
    array (absent, for one) is taken as a success, and the render that
    follows throws a [TypeError]: the list is built from [data] as it is. *)
Theorem response_without_hits_breaks_render st (u : string) (hits : value) :
  is_array hits = false →
  ∃ st',
    step st (FetchSettled u (axios.Fulfilled {| axios.data := axios.BodyObject hits |}))
    = (Return st', [])
    ∧ isError (stories st') = false
    ∧ renderApp st' = Throw TypeError.
Proof.
  intros Hhits. rewrite step_FetchSettled.
  eexists. split; [reflexivity|]. split; [reflexivity|].
  by apply renderApp_no_array.
Qed.

Lemma response_without_hits_breaks_render_witness :
  ∃ st',
    step {| searchTerm := "React"; App.url := API_ENDPOINT +:+ "React";
            stories := {| data := VArray []; isLoading := true; isError := false |};
            localStorage := ∅ |}
         (FetchSettled (API_ENDPOINT +:+ "React")
            (axios.Fulfilled {| axios.data := axios.BodyObject VUndefined |}))
    = (Return st', [])
    ∧ isError (stories st') = false
    ∧ renderApp st' = Throw TypeError.
Proof. apply response_without_hits_breaks_render. reflexivity. Defined.

(** X20. A click on the button of a listed story is always handled: the
    next view lists the keys of the previous one without the key of that
    story, in the same order, and keeps the form and the error message. *)
Theorem dismiss_removes_story_from_view
    st view items (key : string) (iv : ItemView UiEvent) :
  renderApp st = Return view →
  body view = StoryList items →
  (key, iv) ∈ items →
  ∃ st' view',
    step st (onClick iv) = (Return st', [])
    ∧ renderApp st' = Return view'
    ∧ listed_keys view' = filter (fun k => k ≠ key) (listed_keys view)
    ∧ (key ∉ listed_keys view')
    ∧ errorMessage view' = errorMessage view
    ∧ form view' = form view.
Proof.
  intros Hview Hbody Hin.
  destruct (renderApp_list_inv st view items Hview Hbody)
    as (l & Hload & Hdata & -> & Herr & Hform).
  apply list_elem_of_fmap in Hin as (item & Hitem & _).
  injection Hitem as -> ->.
  cbn [onClick Item step]. unfold handleRemoveStory, dispatchToApp.
  cbn [dispatchAll].
  change {| type := "REMOVE_STORY"; payload := VObject item |}
    with (toAction (REMOVE_ITEM item)).
  rewrite reducer_remove, Hdata. cbn [mbind completion_bind].
  eexists _, _. split; [reflexivity|].
  split; [apply (renderApp_list _ (filter (fun story => objectID story ≠ objectID item) l));
          [exact Hload | reflexivity]|].
  unfold listed_keys. rewrite Hbody. cbn [body].
  rewrite !keys_of_items, keys_after_filter.
  split; [reflexivity|]. split.
  - intros Hk. apply list_elem_of_filter in Hk as [Hk _]. by apply Hk.
  - cbn. by rewrite Herr, Hform.
Qed.

Lemma dismiss_removes_story_from_view_witness :
  ∃ st' view',
    step {| searchTerm := "React"; App.url := API_ENDPOINT +:+ "React";
            stories := {| data := VArray [story_of "1"; story_of "2"; story_of "3"];
                          isLoading := false; isError := false |};
            localStorage := ∅ |}
         (onClick (Item (story_of "2") DismissClick))
    = (Return st', [])
    ∧ renderApp st' = Return view'
    ∧ listed_keys view' = ["1"; "3"]
    ∧ ("2" ∉ listed_keys view')
    ∧ errorMessage view' = false
    ∧ form view' = SearchForm "React".
Proof.
  apply (dismiss_removes_story_from_view
           {| searchTerm := "React"; App.url := API_ENDPOINT +:+ "React";
              stories := {| data := VArray [story_of "1"; story_of "2"; story_of "3"];
                            isLoading := false; isError := false |};
              localStorage := ∅ |}
           {| form := SearchForm "React"; errorMessage := false;
              body := StoryList
                        (map (fun item => (objectID item, Item item DismissClick))
                             [story_of "1"; story_of "2"; story_of "3"]) |}
           (map (fun item => (objectID item, Item item DismissClick))
                [story_of "1"; story_of "2"; story_of "3"])
           "2" (Item (story_of "2") DismissClick)).
  - reflexivity.
  - reflexivity.
  - vm_compute. apply list_elem_of_further, list_elem_of_here.
Defined.

(** X21. When a request fails (it is rejected, or its response has no
    body) on a state whose [data] is an array, the page that follows shows
    the error message together with the list of the stories that were
    there before. *)
Theorem failed_fetch_keeps_list_visible st (l : list Story) (u : string)
    (o : axios.Settled) :
  data (stories st) = VArray l →
  o = axios.Rejected ∨ o = axios.Fulfilled {| axios.data := axios.BodyNull |} →
  ∃ st' view,
    step st (FetchSettled u o) = (Return st', [])
    ∧ renderApp st' = Return view
    ∧ errorMessage view = true
    ∧ listed_keys view = map objectID l
    ∧ body view = StoryList (map (fun item => (objectID item, Item item DismissClick)) l).
Proof.
  intros Hdata Ho. rewrite step_FetchSettled.
  assert (settled_action o = FAILURE) as -> by (by destruct Ho as [-> | ->]).
  eexists _, _. split; [reflexivity|].
  split; [apply (renderApp_list _ l); [reflexivity | exact Hdata]|].
  cbn. split; [reflexivity|]. split; [apply keys_of_items | reflexivity].
Qed.

Lemma failed_fetch_keeps_list_visible_witness :
  ∃ st' view,
    step {| searchTerm := "React"; App.url := API_ENDPOINT +:+ "React";
            stories := {| data := VArray [story_of "1"; story_of "2"];
                          isLoading := true; isError := false |};
            localStorage := ∅ |}
         (FetchSettled (API_ENDPOINT +:+ "React") axios.Rejected)
    = (Return st', [])
    ∧ renderApp st' = Return view
    ∧ errorMessage view = true
    ∧ listed_keys view = ["1"; "2"]
    ∧ body view
      = StoryList (map (fun item => (objectID item, Item item DismissClick))
                       [story_of "1"; story_of "2"]).
Proof.
  apply (failed_fetch_keeps_list_visible
           {| searchTerm := "React"; App.url := API_ENDPOINT +:+ "React";
              stories := {| data := VArray [story_of "1"; story_of "2"];
                            isLoading := true; isError := false |};
              localStorage := ∅ |}
           [story_of "1"; story_of "2"]).
  - reflexivity.
  - left. reflexivity.
Defined.

(** X22. A submission that changes the query URL is followed by a page that
    shows "Loading ..." in place of the list and no error message, whatever
    [data] and the flags were before (also after a failure, and also when
    [data] is not an array). *)
Theorem new_search_shows_loading st :
  App.url st ≠ API_ENDPOINT +:+ searchTerm st →
  ∃ st' view,
    step st SubmitForm = (Return st', [API_ENDPOINT +:+ searchTerm st])
    ∧ renderApp st' = Return view
    ∧ body view = LoadingText
    ∧ errorMessage view = false
    ∧ data (stories st') = data (stories st).
Proof.
  intros Hu. cbn [step]. rewrite commit_spec.
  cbn [handleSearchSubmit searchTerm App.url stories localStorage].
  rewrite bool_decide_eq_false_2 by exact Hu.
  eexists _, _. split; [reflexivity|].
  split; [by apply renderApp_loading|]. by cbn.
Qed.

Lemma new_search_shows_loading_witness :
  ∃ st' view,
    step {| searchTerm := "Rust"; App.url := API_ENDPOINT +:+ "React";
            stories := {| data := VArray [story_of "1"]; isLoading := false;
                          isError := true |};
            localStorage := {[ "search" := "Rust" ]} |}
         SubmitForm
    = (Return st', [API_ENDPOINT +:+ "Rust"])
    ∧ renderApp st' = Return view
    ∧ body view = LoadingText
    ∧ errorMessage view = false
    ∧ data (stories st') = VArray [story_of "1"].
Proof.
  apply (new_search_shows_loading
           {| searchTerm := "Rust"; App.url := API_ENDPOINT +:+ "React";
              stories := {| data := VArray [story_of "1"]; isLoading := false;
                            isError := true |};
              localStorage := {[ "search" := "Rust" ]} |}).
  discriminate.
Defined.

End Page.

(** ** Runs with rendering *)

Section LiveRuns.

Import App.
Implicit Types (st : AppState) (e : UiEvent).

(** A run that React carries out to the end is a run of the handlers. *)
Lemma interact_live_interact (events : list UiEvent) st st' (requested : list string) :
  interact_live st events = Some (Return st', requested) →
  interact st events = Some (Return st', requested).
Proof.
  revert st st' requested.
  induction events as [|e events IH]; intros st st' requested; [done|].
  cbn [interact_live interact]. destruct (offered st e); [|done].
  destruct (step st e) as [[st1|err] rq]; [|done].
  destruct (renderApp st1) as [view|err]; [|discriminate].
  destruct (interact_live st1 events) as [[[final|err] more]|] eqn:Hlive;
    cbn; try discriminate.
  intros [= <- <-]. by rewrite (IH _ _ _ Hlive).
Qed.

(** X17. Responses are applied in the order they arrive, whichever request
    each one answers. On a component whose [data] is an array, after any
    series of earlier responses that are failures or carry an array (so
    that the page is rendered after each of them), a response with an
    array of [hits] that arrives last puts these [hits] in [data] and
    clears both flags, also when it answers an older request than the ones
    before; the query URL is not looked at. *)
Theorem last_response_to_arrive_wins
    st (l : list Story) (earlier : list (string * axios.Settled))
    (u : string) (hits : list Story) :
  data (stories st) = VArray l →
  Forall (fun r => well_shaped r.2 = true) earlier →
  interact_live st
    ((uncurry FetchSettled <$> earlier)
     ++ [FetchSettled u
           (axios.Fulfilled {| axios.data := axios.BodyObject (VArray hits) |})])%list
  = Some (Return {| searchTerm := searchTerm st; App.url := App.url st;
                    stories := {| data := VArray hits; isLoading := false;
                                  isError := false |};
                    localStorage := localStorage st |},
          []).
Proof.
  intros Hdata Hshape. revert st l Hdata.
  induction Hshape as [|[u' o'] earlier Ho _ IH]; intros st l Hdata.
  - cbn [fmap list_fmap app interact_live offered]. rewrite step_FetchSettled.
    reflexivity.
  - cbn [fmap list_fmap app uncurry interact_live offered].
    rewrite step_FetchSettled.
    destruct st as [term address [d ld er] storage]. cbn in Hdata. subst d.
    destruct o' as [[[|[|h|item]]]|]; try discriminate Ho;
      cbn [settled_action dispatchToApp dispatchAll mbind completion_bind stories
           storiesReducer String.eqb Ascii.eqb Bool.eqb type payload data FAILURE SUCCESS
           set_stories searchTerm App.url localStorage renderApp isLoading List];
      erewrite IH by reflexivity; reflexivity.
Qed.

Lemma last_response_to_arrive_wins_witness :
  interact_live
    {| searchTerm := "Rust"; App.url := API_ENDPOINT +:+ "Rust";
       stories := {| data := VArray []; isLoading := true; isError := false |};
       localStorage := {[ "search" := "Rust" ]} |}
    [FetchSettled (API_ENDPOINT +:+ "Rust")
       (axios.Fulfilled {| axios.data := axios.BodyObject (VArray [story_of "2"]) |});
     FetchSettled (API_ENDPOINT +:+ "React")
       (axios.Fulfilled {| axios.data := axios.BodyObject (VArray [story_of "1"]) |})]
  = Some (Return {| searchTerm := "Rust"; App.url := API_ENDPOINT +:+ "Rust";
                    stories := {| data := VArray [story_of "1"]; isLoading := false;
                                  isError := false |};
                    localStorage := {[ "search" := "Rust" ]} |},
          []).
Proof.
  assert (Forall (fun r : string * axios.Settled => well_shaped r.2 = true)
            [(API_ENDPOINT +:+ "Rust",
              axios.Fulfilled
                {| axios.data := axios.BodyObject (VArray [story_of "2"]) |})])
    as Hshape by (repeat constructor).
  exact (last_response_to_arrive_wins
           {| searchTerm := "Rust"; App.url := API_ENDPOINT +:+ "Rust";
              stories := {| data := VArray []; isLoading := true; isError := false |};
              localStorage := {[ "search" := "Rust" ]} |}
           [] _ (API_ENDPOINT +:+ "React") [story_of "1"] eq_refl Hshape).
Defined.

(** A response without [hits] ends the run: what arrives later is dropped. *)
Example response_after_a_broken_render_is_dropped :
  interact_live
    {| searchTerm := "Rust"; App.url := API_ENDPOINT +:+ "Rust";
       stories := {| data := VArray []; isLoading := true; isError := false |};
       localStorage := {[ "search" := "Rust" ]} |}
    [FetchSettled (API_ENDPOINT +:+ "React")
       (axios.Fulfilled {| axios.data := axios.BodyObject VUndefined |});
     FetchSettled (API_ENDPOINT +:+ "Rust")
       (axios.Fulfilled {| axios.data := axios.BodyObject (VArray [story_of "2"]) |})]
  = Some (Throw TypeError, []).
Proof. vm_compute. reflexivity. Qed.

End LiveRuns.
